(** * The Poisson notebook (chapter1/poisson.ipynb)

    A model of the notebook's own code: the two helpers of the visualisation
    cell, [refine_array_1d] and [plot_solutions], and the sequence of
    top-level statements that binds the pipeline's names.

    The arrays hold floating-point numbers.  The helpers are modelled over
    an interface of the arithmetic they use.  Its instances are IEEE
    binary64, which is what NumPy computes with, the exact rationals, to say
    what the formulas give when nothing is rounded, and the real numbers, for
    the values of [sin].  Objects returned by SymPDE and PsyDAC are kept as
    uninterpreted terms. *)

From Stdlib Require Import QArith SpecFloat Rbase Rtrigo1 Lra Lqa.
From stdpp Require Import base option list gmap strings.

(** ** Exceptions and results *)

Inductive exn : Type :=
| NameError (name : string)
| ValueError
| IndexError
| TypeError.

Inductive result (A : Type) : Type :=
| Ok (a : A)
| Raise (e : exn).
Arguments Ok {A} a.
Arguments Raise {A} e.

#[export] Instance result_ret : MRet result := fun _ a => Ok a.
#[export] Instance result_bind : MBind result := fun _ _ f m =>
  match m with
  | Ok a => f a
  | Raise e => Raise e
  end.

(** ** Numbers

    What the helpers do with the entries of an array: convert an integer,
    add, subtract, multiply, divide and compare with zero.  [less] is the
    order [<] of the numbers; the code never calls it, the statements on
    increasing arrays do. *)

Class Number (T : Type) : Type := {
  of_int : Z -> T;
  plus : T -> T -> T;
  minus : T -> T -> T;
  times : T -> T -> T;
  divide : T -> T -> T;
  is_zero : T -> bool;
  less : T -> T -> bool
}.

Declare Scope number_scope.
Delimit Scope number_scope with num.
Infix "+" := plus : number_scope.
Infix "-" := minus : number_scope.
Infix "*" := times : number_scope.
Infix "/" := divide : number_scope.

(** IEEE 754 binary64, rounding to nearest even: NumPy's [float64] *)
Module binary64.

Definition prec : Z := 53.
Definition emax : Z := 1024.

(** The float nearest to [m * 2^e] *)
Definition of_scaled (m e : Z) : spec_float := binary_normalize prec emax m e false.

Definition zero : spec_float := S754_zero false.
Definition nan : spec_float := S754_nan.
Definition inf : spec_float := S754_infinity false.

End binary64.

#[export] Instance binary64_number : Number spec_float := {
  of_int z := binary64.of_scaled z 0;
  plus := SFadd binary64.prec binary64.emax;
  minus := SFsub binary64.prec binary64.emax;
  times := SFmul binary64.prec binary64.emax;
  divide := SFdiv binary64.prec binary64.emax;
  is_zero x := SFeqb x binary64.zero;
  less := SFltb
}.

(** Exact arithmetic *)
#[export] Instance Q_number : Number Q := {
  of_int := inject_Z;
  plus := Qplus;
  minus := Qminus;
  times := Qmult;
  divide := Qdiv;
  is_zero x := Qeq_bool x 0;
  less x y := (Qnum x * QDen y <? Qnum y * QDen x)%Z
}.

(** The real numbers, for what an expression means before any rounding *)
#[export] Instance R_number : Number R := {
  of_int := IZR;
  plus := Rplus;
  minus := Rminus;
  times := Rmult;
  divide := Rdiv;
  is_zero x := if Req_dec_T x 0%R then true else false;
  less x y := if Rlt_dec x y then true else false
}.

(** ** The NumPy operations the helpers call *)

Module np.
Section Arrays.
Context {T : Type} `{Number T}.
Local Open Scope number_scope.

(** [np.arange(0, num)] as floats *)
Definition arange (num : Z) : list T :=
  (fun i : nat => of_int (Z.of_nat i)) <$> seq 0 (Z.to_nat num).

(** [y[-1] = v] *)
Definition set_last (y : list T) (v : T) : list T :=
  take (length y - 1) y ++ [v].

(** [np.linspace(start, stop, num)] with [endpoint=True], as NumPy computes
    it: a negative [num] is a [ValueError]; with [div = num - 1] and
    [step = (stop - start) / div], the samples are [i * step + start], or
    [i / div * (stop - start) + start] when [step == 0], and the last one is
    overwritten with [stop].  An array is as long as [num] asks: that NumPy
    cannot allocate an array larger than the memory is left out. *)
Definition linspace (start stop : T) (num : Z) : result (list T) :=
  if (num <? 0)%Z then Raise ValueError
  else
    let div := (num - 1)%Z in
    let delta := stop - start in
    let y := arange num in
    let y :=
      if (0 <? div)%Z
      then
        let step := delta / of_int div in
        if is_zero step
        then (fun v => v / of_int div * delta) <$> y
        else (fun v => v * step) <$> y
      else (fun v => v * delta) <$> y in
    let y := (fun v => v + start) <$> y in
    Ok (if (1 <? num)%Z then set_last y stop else y).

(** [np.concatenate]: refuses an empty sequence of arrays *)
Definition concatenate (arrays : list (list T)) : result (list T) :=
  match arrays with
  | [] => Raise ValueError
  | _ => Ok (concat arrays)
  end.

(** [np.append(arr, v)] *)
Definition append (arr : list T) (v : T) : list T := arr ++ [v].

End Arrays.
End np.

(** ** Python sequence primitives *)

Section Sequences.
Context {T : Type}.

(** [a[i]] for [0 <= i] *)
Definition getitem (a : list T) (i : nat) : result T :=
  match a !! i with
  | Some v => Ok v
  | None => Raise IndexError
  end.

(** [a[-1]] *)
Definition getitem_last (a : list T) : result T :=
  match last a with
  | Some v => Ok v
  | None => Raise IndexError
  end.

(** [a[:-1]] *)
Definition slice_but_last (a : list T) : list T := take (length a - 1) a.

(** [range(len(a) - 1)]: empty when [len(a) <= 1] *)
Definition range_len_minus_1 (a : list T) : list nat := seq 0 (length a - 1).

End Sequences.

(** ** refine_array_1d

    [[
    def refine_array_1d(breaks, N):
        refined = np.concatenate([np.linspace(breaks[i], breaks[i+1], N+1)[:-1]
                                  for i in range(len(breaks)-1)])
        return np.append(refined, breaks[-1])
    ]]
    [np] is taken to name NumPy, as it does wherever the notebook calls the
    function. *)

Definition refine_array_1d {T : Type} `{Number T} (breaks : list T) (N : Z)
    : result (list T) :=
  pieces ← mapM (fun i =>
                   lo ← getitem breaks i;
                   hi ← getitem breaks (i + 1);
                   ys ← np.linspace lo hi (N + 1);
                   mret (slice_but_last ys))
                (range_len_minus_1 breaks);
  refined ← np.concatenate pieces;
  final ← getitem_last breaks;
  mret (np.append refined final).


(** ** Python values of the notebook

    The notebook computes no SymPDE or PsyDAC object itself: it receives them
    from library calls.  Such an object is represented by the expression that
    produced it. *)

Inductive binop : Type := Mul | Pow | Sub.

#[local] Unset Elimination Schemes.
Inductive pyval : Type :=
| VNone
| VInt (z : Z)
| VStr (s : string)
| VList (items : list pyval)
| VTuple (items : list pyval)
| VExtern (qualname : string)
| VDef (name : string)
| VCall (f : pyval) (args : list pyval) (kwargs : list (string * pyval))
| VAttr (obj : pyval) (attr : string)
| VItem (obj : pyval) (i : nat)
| VBinOp (op : binop) (lhs rhs : pyval).
#[local] Set Elimination Schemes.

Definition binop_eqb (a b : binop) : bool :=
  match a, b with
  | Mul, Mul | Pow, Pow | Sub, Sub => true
  | _, _ => false
  end.

(** [a == b] on the terms that stand for library objects: the same
    expression, built from the same parts *)
Fixpoint pyval_eqb (a b : pyval) : bool :=
  let fix items (xs ys : list pyval) : bool :=
    match xs, ys with
    | [], [] => true
    | x :: xs', y :: ys' => pyval_eqb x y && items xs' ys'
    | _, _ => false
    end in
  let fix keywords (xs ys : list (string * pyval)) : bool :=
    match xs, ys with
    | [], [] => true
    | (k, x) :: xs', (l, y) :: ys' =>
        String.eqb k l && pyval_eqb x y && keywords xs' ys'
    | _, _ => false
    end in
  match a, b with
  | VNone, VNone => true
  | VInt x, VInt y => Z.eqb x y
  | VStr x, VStr y => String.eqb x y
  | VList xs, VList ys => items xs ys
  | VTuple xs, VTuple ys => items xs ys
  | VExtern x, VExtern y => String.eqb x y
  | VDef x, VDef y => String.eqb x y
  | VCall f xs ks, VCall g ys ls => pyval_eqb f g && items xs ys && keywords ks ls
  | VAttr o x, VAttr p y => pyval_eqb o p && String.eqb x y
  | VItem o i, VItem p j => pyval_eqb o p && Nat.eqb i j
  | VBinOp op l r, VBinOp op' l' r' =>
      binop_eqb op op' && pyval_eqb l l' && pyval_eqb r r'
  | _, _ => false
  end.

(** ** The global namespace and the record of its use *)

(** How a name got bound: by an [import], an assignment or a [def]. *)
Inductive kind : Type := Import | Assign | Def.

(** A binding remembers the line of the statement that made it. *)
Record binding : Type := Binding {
  b_line : nat;
  b_kind : kind;
  b_value : pyval
}.

(** What the trace records: a name being bound, and a name being read
    together with the line of the binding it reads. *)
Inductive event : Type :=
| Bind (line : nat) (k : kind) (name : string)
| Load (line : nat) (name : string) (def_line : nat).

Record state : Type := State {
  globals : gmap string binding;
  trace : list event;
  line : nat
}.

Definition initial : state := State ∅ [] 0.

(** The builtins the notebook refers to. *)
Definition builtins : list string := ["print"; "len"; "range"].

(** ** The monad of notebook code: state and exceptions *)

Definition nb (A : Type) : Type := state -> result A * state.

#[export] Instance nb_ret : MRet nb := fun _ a s => (Ok a, s).
#[export] Instance nb_bind : MBind nb := fun _ _ f m s =>
  match m s with
  | (Ok a, s') => f a s'
  | (Raise e, s') => (Raise e, s')
  end.

Definition raise {A} (e : exn) : nb A := fun s => (Raise e, s).

Definition lift {A} (r : result A) : nb A := fun s => (r, s).

(** Reading a name: the globals, then the builtins, else [NameError]. *)
Definition name (x : string) : nb pyval := fun s =>
  match globals s !! x with
  | Some b =>
      (Ok (b_value b),
       State (globals s) (trace s ++ [Load (line s) x (b_line b)]) (line s))
  | None =>
      if bool_decide (x ∈ builtins)
      then (Ok (VExtern ("builtins." +:+ x)), s)
      else (Raise (NameError x), s)
  end.

(** Binding a name *)
Definition store (k : kind) (x : string) (v : pyval) : nb unit := fun s =>
  (Ok tt,
   State (<[x := Binding (line s) k v]> (globals s))
         (trace s ++ [Bind (line s) k x])
         (line s)).

(** Code run as part of the top-level statement of line [l] *)
Definition at_line {A} (l : nat) (body : nb A) : nb A := fun s =>
  body (State (globals s) (trace s) l).

(** A top-level statement is kept with the line it stands on. *)
Definition statement : Type := nat * nb unit.

Definition run_statement (st : statement) : nb unit := at_line st.1 st.2.

Fixpoint block (stmts : list statement) : nb unit :=
  match stmts with
  | [] => mret tt
  | st :: rest => _ ← run_statement st; block rest
  end.

(** ** Expressions, evaluated left to right *)

Definition sequence {A} (es : list (nb A)) : nb (list A) := mapM id es.

Fixpoint keywords (kws : list (string * nb pyval)) : nb (list (string * pyval)) :=
  match kws with
  | [] => mret []
  | (k, e) :: rest => v ← e; vs ← keywords rest; mret ((k, v) :: vs)
  end.

Definition int (z : Z) : nb pyval := mret (VInt z).
Definition str (s : string) : nb pyval := mret (VStr s).
Definition none : nb pyval := mret VNone.
Definition list_ (es : list (nb pyval)) : nb pyval := vs ← sequence es; mret (VList vs).
Definition tuple (es : list (nb pyval)) : nb pyval := vs ← sequence es; mret (VTuple vs).
Definition attr (e : nb pyval) (a : string) : nb pyval := v ← e; mret (VAttr v a).
Definition binary (op : binop) (e1 e2 : nb pyval) : nb pyval :=
  v1 ← e1; v2 ← e2; mret (VBinOp op v1 v2).

(** [f(args, kw=...)]: the callee, then the arguments, then the keywords *)
Definition call (f : nb pyval) (args : list (nb pyval))
    (kws : list (string * nb pyval)) : nb pyval :=
  vf ← f; vargs ← sequence args; vkws ← keywords kws; mret (VCall vf vargs vkws).

(** [[body for i in items]] *)
Definition listcomp (body : pyval -> nb pyval) (items : nb pyval) : nb pyval :=
  it ← items;
  match it with
  | VList vs | VTuple vs => out ← mapM body vs; mret (VList out)
  | _ => mret (VCall (VExtern "builtins.list") [it] [])
  end.

(** ** Statements *)

Definition assign (x : string) (e : nb pyval) : nb unit := v ← e; store Assign x v.

(** [x, y = e] *)
Definition assign2 (x y : string) (e : nb pyval) : nb unit :=
  v ← e;
  match v with
  | VList [a; b] | VTuple [a; b] => _ ← store Assign x a; store Assign y b
  | VList _ | VTuple _ => raise ValueError
  | _ => _ ← store Assign x (VItem v 0); store Assign y (VItem v 1)
  end.

Definition expr_stmt (e : nb pyval) : nb unit := _ ← e; mret tt.

(** [from module import a, b, ...] *)
Fixpoint import_from (module : string) (names : list string) : nb unit :=
  match names with
  | [] => mret tt
  | x :: rest =>
      _ ← store Import x (VExtern (module +:+ "." +:+ x)); import_from module rest
  end.

(** [import module as x] *)
Definition import_as (module x : string) : nb unit := store Import x (VExtern module).

(** [def f(...): ...] *)
Definition def (f : string) : nb unit := store Def f (VDef f).

(** ** The cells before the visualisation, statement by statement *)

(** Formal model: lines 53 to 83 *)
Definition cell_formal_model : list statement := [
  (53, import_from "sympde.expr" ["BilinearForm"; "LinearForm"; "integral"]);
  (54, import_from "sympde.expr" ["find"; "EssentialBC"; "Norm"; "SemiNorm"]);
  (55, import_from "sympde.topology" ["ScalarFunctionSpace"; "Square"; "element_of"]);
  (56, import_from "sympde.calculus" ["grad"; "dot"]);
  (58, import_as "matplotlib.pyplot" "plt");
  (59, import_as "numpy" "np");
  (60, import_from "mpl_toolkits.axes_grid1" ["make_axes_locatable"]);
  (62, import_from "sympy" ["pi"; "sin"; "lambdify"]);
  (64, assign "domain" (call (name "Square") [] []));
  (66, assign "V" (call (name "ScalarFunctionSpace") [str "V"; name "domain"] []));
  (68, assign2 "x" "y" (attr (name "domain") "coordinates"));
  (70, assign2 "u" "v"
        (listcomp (fun i => call (name "element_of") [name "V"] [("name", mret i)])
                  (list_ [str "u"; str "v"])));
  (73, assign "a"
        (call (name "BilinearForm")
           [tuple [name "u"; name "v"];
            call (name "integral")
              [name "domain";
               call (name "dot")
                 [call (name "grad") [name "v"] [];
                  call (name "grad") [name "u"] []] []] []] []));
  (76, assign "f"
        (binary Mul
           (binary Mul
              (binary Mul (int 2) (binary Pow (name "pi") (int 2)))
              (call (name "sin") [binary Mul (name "pi") (name "x")] []))
           (call (name "sin") [binary Mul (name "pi") (name "y")] [])));
  (77, assign "l"
        (call (name "LinearForm")
           [name "v";
            call (name "integral")
              [name "domain"; binary Mul (name "f") (name "v")] []] []));
  (80, assign "bc"
        (list_ [call (name "EssentialBC")
                  [name "u"; int 0; attr (name "domain") "boundary"] []]));
  (83, assign "equation"
        (call (name "find") [name "u"]
           [("forall", name "v");
            ("lhs", call (name "a") [name "u"; name "v"] []);
            ("rhs", call (name "l") [name "v"] []);
            ("bc", name "bc")]))
].

(** Line 128 *)
Definition cell_import_discretize : list statement := [
  (128, import_from "psydac.api.discretization" ["discretize"])
].

(** Lines 138 and 139 *)
Definition cell_parameters : list statement := [
  (138, assign "degree" (list_ [int 3; int 3]));
  (139, assign "ncells" (list_ [int 16; int 16]))
].

(** Discretisation: lines 150 to 156 *)
Definition cell_discretize : list statement := [
  (150, assign "domain_h"
         (call (name "discretize") [name "domain"]
            [("ncells", name "ncells"); ("comm", none)]));
  (153, assign "Vh"
         (call (name "discretize") [name "V"; name "domain_h"]
            [("degree", name "degree")]));
  (156, assign "equation_h"
         (call (name "discretize")
            [name "equation"; name "domain_h"; list_ [name "Vh"; name "Vh"]] []))
].

(** Line 174 *)
Definition cell_solve : list statement := [
  (174, assign "uh" (call (attr (name "equation_h") "solve") [] []))
].

(** The error [u - ue], as the three norm cells write it *)
Definition u_minus_ue : nb pyval := binary Sub (name "u") (name "ue").

(** L2 norm: lines 208 to 222 *)
Definition cell_l2_norm : list statement := [
  (208, assign "ue"
         (binary Mul
            (call (name "sin") [binary Mul (name "pi") (name "x")] [])
            (call (name "sin") [binary Mul (name "pi") (name "y")] [])));
  (209, assign "u" (call (name "element_of") [name "V"] [("name", str "u")]));
  (212, assign "l2norm"
         (call (name "Norm") [u_minus_ue; name "domain"] [("kind", str "l2")]));
  (213, expr_stmt (call (name "print") [name "l2norm"] []));
  (216, assign "l2norm_h"
         (call (name "discretize") [name "l2norm"; name "domain_h"; name "Vh"] []));
  (219, assign "l2_error"
         (call (attr (name "l2norm_h") "assemble") [] [("u", name "uh")]));
  (222, expr_stmt (call (name "print") [name "l2_error"] []))
].

(** H1 semi-norm: lines 241 to 250 *)
Definition cell_h1_seminorm : list statement := [
  (241, assign "h1norm"
         (call (name "SemiNorm") [u_minus_ue; name "domain"] [("kind", str "h1")]));
  (244, assign "h1norm_h"
         (call (name "discretize") [name "h1norm"; name "domain_h"; name "Vh"] []));
  (247, assign "h1_error"
         (call (attr (name "h1norm_h") "assemble") [] [("u", name "uh")]));
  (250, expr_stmt (call (name "print") [name "h1_error"] []))
].

(** H1 norm: lines 269 to 278 *)
Definition cell_h1_norm : list statement := [
  (269, assign "h1norm"
         (call (name "Norm") [u_minus_ue; name "domain"] [("kind", str "h1")]));
  (272, assign "h1norm_h"
         (call (name "discretize") [name "h1norm"; name "domain_h"; name "Vh"] []));
  (275, assign "h1_error"
         (call (attr (name "h1norm_h") "assemble") [] [("u", name "uh")]));
  (278, expr_stmt (call (name "print") [name "h1_error"] []))
].

(** The visualisation cell up to the call: lines 296 to 370 *)
Definition cell_visualization_setup : list statement := [
  (296, import_as "numpy" "np");
  (297, import_as "matplotlib.pyplot" "plt");
  (298, import_from "mpl_toolkits.axes_grid1" ["make_axes_locatable"]);
  (300, def "refine_array_1d");
  (305, def "plot_solutions");
  (370, assign "ue"
         (call (name "lambdify")
            [tuple [name "x"; name "y"]; name "u"; str "numpy"] []))
].

(** The arguments of the call of line 371, in the order Python reads them *)
Definition call_site : nb (pyval * pyval * pyval) :=
  _ ← name "plot_solutions";
  Vh ← name "Vh";
  uh ← name "uh";
  ue ← name "ue";
  mret (Vh, uh, ue).

(** The cells in order, up to line 370 *)
Definition cells_before_call : list statement :=
  cell_formal_model ++ cell_import_discretize ++ cell_parameters ++
  cell_discretize ++ cell_solve ++ cell_l2_norm ++ cell_h1_seminorm ++
  cell_h1_norm ++ cell_visualization_setup.

(** Everything the notebook runs before the body of [plot_solutions] *)
Definition before_plot : nb (pyval * pyval * pyval) :=
  _ ← block cells_before_call; at_line 371 call_site.

(** ** plot_solutions *)

(** The data of the three panels and of the grid they are drawn on *)
Record figure (T : Type) : Type := Figure {
  fig_xx : list (list T);
  fig_yy : list (list T);
  fig_exact : list (list T);
  fig_numerical : list (list T);
  fig_error : list (list T)
}.
Arguments Figure {T} _ _ _ _ _.
Arguments fig_xx {T} _.
Arguments fig_yy {T} _.
Arguments fig_exact {T} _.
Arguments fig_numerical {T} _.
Arguments fig_error {T} _.

(** [ax.contourf(x, y, z, 40, cmap='jet')]: Matplotlib refuses a [z] with
    fewer than two rows or fewer than two columns with a [TypeError]. *)
Definition contourf {T : Type} (x y z : list (list T)) : result unit :=
  if (2 <=? length z) && forallb (fun row => 2 <=? length row) z
  then Ok tt
  else Raise TypeError.

Section Libraries.

Context {T : Type} `{Number T}.

(** What the library objects hold is outside the notebook: the floats of an
    array object, and the float a callable object returns at a point. *)
Variable array_of : pyval -> list T.
Variable apply2 : pyval -> T -> T -> T.

(** [a - b] on two-dimensional arrays of the same shape *)
Definition array2_sub (a b : list (list T)) : list (list T) :=
  zip_with (zip_with minus) a b.

(** [np.meshgrid(eta1, eta2, indexing='ij')] *)
Definition meshgrid_ij (eta1 eta2 : list T) : list (list T) * list (list T) :=
  ((fun e1 => (fun _ => e1) <$> eta2) <$> eta1, (fun _ => eta2) <$> eta1).

(** [Vh.spaces[i].breaks] *)
Definition breaks_of (Vh : pyval) (i : nat) : list T :=
  array_of (VAttr (VItem (VAttr Vh "spaces") i) "breaks").

(** A call of [refine_array_1d] (lines 300-303) from notebook code.  The body
    looks the global [np] up each time it mentions it: for [np.concatenate]
    before the list is built, for [np.linspace] in every round of the
    comprehension, and for [np.append] on the last line.  [range] and [len]
    are the builtins.  With [np] bound, the call returns what
    [refine_array_1d] computes. *)
Definition call_refine_array_1d (breaks : list T) (N : Z) : nb (list T) :=
  _ ← name "np";
  pieces ← mapM (fun i =>
                   _ ← name "np";
                   lift (lo ← getitem breaks i;
                         hi ← getitem breaks (i + 1);
                         ys ← np.linspace lo hi (N + 1);
                         mret (slice_but_last ys)))
                (range_len_minus_1 breaks);
  refined ← lift (np.concatenate pieces);
  _ ← name "np";
  final ← lift (getitem_last breaks);
  mret (np.append refined final).

(** [[
    def plot_solutions(Vh, uh, ue, N=10):
        eta1 = refine_array_1d(Vh.spaces[0].breaks, N)
        eta2 = refine_array_1d(Vh.spaces[1].breaks, N)
        num = np.array([[uh(e1, e2) for e2 in eta2] for e1 in eta1])
        ex = np.array([[phi_exact(e1, e2) for e2 in eta2] for e1 in eta1])
        err = num - ex
        xx, yy = np.meshgrid(eta1, eta2, indexing='ij')
        fig, axes = plt.subplots(1, 3, figsize=(12.8, 4.8))
        ...   three panels: ax.contourf(xx, yy, z, 40, cmap='jet') for z in
              ex, num, err, each followed by add_colorbar, which calls
              make_axes_locatable
        plt.tight_layout()
        fig.show()
    ]]
    The body reads [Vh], [uh] and [N] from its parameters; [refine_array_1d],
    [np], [phi_exact], [plt] and [make_axes_locatable] are free names, looked
    up when the line that mentions them runs.  The figure it shows is kept as
    the data of its panels. *)
Definition plot_solutions (Vh uh ue : pyval) (N : Z) : nb (figure T) :=
  _ ← name "refine_array_1d";
  eta1 ← call_refine_array_1d (breaks_of Vh 0) N;
  _ ← name "refine_array_1d";
  eta2 ← call_refine_array_1d (breaks_of Vh 1) N;
  _ ← name "np";
  let num := (fun e1 => (fun e2 => apply2 uh e1 e2) <$> eta2) <$> eta1 in
  _ ← name "np";
  ex ← mapM (fun e1 =>
               mapM (fun e2 =>
                       phi_exact ← name "phi_exact";
                       mret (apply2 phi_exact e1 e2))
                    eta2)
            eta1;
  let err := array2_sub num ex in
  _ ← name "np";
  let '(xx, yy) := meshgrid_ij eta1 eta2 in
  _ ← name "plt";
  _ ← lift (contourf xx yy ex);
  _ ← name "make_axes_locatable";
  _ ← lift (contourf xx yy num);
  _ ← name "make_axes_locatable";
  _ ← lift (contourf xx yy err);
  _ ← name "make_axes_locatable";
  _ ← name "plt";
  mret (Figure xx yy ex num err).

(** Line 371: [plot_solutions(Vh, uh, ue, N=10)] *)
Definition cell_visualization_call : list statement := [
  (371, '(Vh, uh, ue) ← call_site;
        _ ← plot_solutions Vh uh ue 10;
        mret tt)
].

(** The whole notebook, run from top to bottom *)
Definition notebook : list statement :=
  cells_before_call ++ cell_visualization_call.

End Libraries.

(** ** Calling a function made by lambdify

    [lambdify((p1, p2), body, 'numpy')] makes a function of two numbers that
    evaluates [body] with NumPy, [p1] and [p2] standing for its arguments. *)

Section Lambdify.

Context {T : Type} `{Number T}.

(** NumPy's [pi], [sin] and [**] *)
Variable np_pi : T.
Variable np_sin : T -> T.
Variable np_power : T -> T -> T.

(** A symbol of [body] that is not a parameter is written into the generated
    function by its name and read as a global when the function runs
    ([NameError] when nothing is bound to it).  The outcome depends on the
    name only; the notebook does not decide it. *)
Variable free_symbol : string -> result T.

(** Any other kind of sub-expression: not decided by the notebook either. *)
Variable unsupported : list (pyval * T) -> pyval -> result T.

(** The argument bound to the parameter [e], if [e] is a parameter *)
Fixpoint parameter (env : list (pyval * T)) (e : pyval) : option T :=
  match env with
  | [] => None
  | (p, v) :: rest => if pyval_eqb p e then Some v else parameter rest e
  end.

Definition binop_value (op : binop) (x y : T) : T :=
  match op with
  | Mul => times x y
  | Pow => np_power x y
  | Sub => minus x y
  end.

Fixpoint numeric (env : list (pyval * T)) (e : pyval) : result T :=
  match parameter env e with
  | Some v => Ok v
  | None =>
      match e with
      | VInt z => Ok (of_int z)
      | VExtern q =>
          if String.eqb q "sympy.pi" then Ok np_pi else unsupported env e
      | VBinOp op a b =>
          x ← numeric env a; y ← numeric env b; mret (binop_value op x y)
      | VCall (VExtern q) [a] [] =>
          if String.eqb q "sympy.sin"
          then x ← numeric env a; mret (np_sin x)
          else unsupported env e
      | VCall (VExtern q) [_] [(k, VStr n)] =>
          if String.eqb q "sympde.topology.element_of" && String.eqb k "name"
          then free_symbol n
          else unsupported env e
      | _ => unsupported env e
      end
  end.

(** [f(a, b)] for [f = lambdify((p1, p2), body, module)]; [None] when [f] was
    not made that way *)
Definition call_lambdified (f : pyval) (a b : T) : option (result T) :=
  match f with
  | VCall (VExtern q) [VTuple [p1; p2]; body; _] [] =>
      if String.eqb q "sympy.lambdify"
      then Some (numeric [(p1, a); (p2, b)] body)
      else None
  | _ => None
  end.

End Lambdify.

(** * Definitions used in the statements and proofs *)

Section RefinedPoints.
Context {T : Type} `{Number T}.
Local Open Scope number_scope.

(** Strictly increasing sequences: each entry is below its successor. *)
Fixpoint increasing (l : list T) : Prop :=
  match l with
  | [] => True
  | x :: tl =>
      match tl with
      | [] => True
      | y :: _ => less x y = true /\ increasing tl
      end
  end.

(** ** What refine_array_1d computes, interval by interval *)

(** The [j]-th sample of [np.linspace(lo, hi, N + 1)] for [N >= 1], computed
    as [linspace] does *)
Definition sample (lo hi : T) (N : Z) (j : nat) : T :=
  let delta := hi - lo in
  let step := delta / of_int N in
  (if is_zero step
   then of_int (Z.of_nat j) / of_int N * delta
   else of_int (Z.of_nat j) * step) + lo.

(** The samples an interval contributes: all of its linspace but the last. *)
Definition piece (lo hi : T) (N : Z) : list T :=
  sample lo hi N <$> seq 0 (Z.to_nat N).

(** The pieces of consecutive breaks, followed by the last break. *)
Fixpoint refined_points (breaks : list T) (N : Z) : list T :=
  match breaks with
  | [] => []
  | lo :: tl =>
      match tl with
      | [] => [lo]
      | hi :: _ => piece lo hi N ++ refined_points tl N
      end
  end.

(** The piece of the [i]-th interval, read by index as the loop does *)
Definition piece_at (breaks : list T) (N : Z) (i : nat) : list T :=
  piece (default (of_int 0) (breaks !! i))
        (default (of_int 0) (breaks !! (i + 1)%nat)) N.

End RefinedPoints.

(** A binary64 number that is neither a zero, an infinity nor a NaN *)
Definition finite_nonzero (x : spec_float) : bool :=
  match x with
  | S754_finite _ _ _ => true
  | _ => false
  end.

Definition is_nan (x : spec_float) : bool :=
  match x with
  | S754_nan => true
  | _ => false
  end.

(** Some binary64 numbers: [1.0], the float after it [1.0 + 2^-52],
    and [1e308] *)
Definition float_one : spec_float := binary64.of_scaled 1 0.
Definition float_after_one : spec_float := binary64.of_scaled (2 ^ 52 + 1) (-52).
Definition float_1e308 : spec_float := binary64.of_scaled 5010420900022432 971.

(** ** Reading the trace *)

(** The outputs of the pipeline's stages: the names bound by an assignment,
    each with the line that binds it *)
Definition stage_outputs (tr : list event) : list (string * nat) :=
  omap (fun e => match e with
                 | Bind l Assign x => Some (x, l)
                 | _ => None
                 end) tr.

(** The lines of the reads of the binding of [x] made at line [d] *)
Definition reads_of (x : string) (d : nat) (tr : list event) : list nat :=
  omap (fun e => match e with
                 | Load l y d' => if decide (x = y /\ d = d') then Some l else None
                 | _ => None
                 end) tr.

(** The statements that consume that binding *)
Definition consumers (x : string) (d : nat) (tr : list event) : list nat :=
  remove_dups (reads_of x d tr).

(** The first lines of the nine code cells, and the cell a line belongs to
    (counted from 1) *)
Definition cell_starts : list nat := [53; 128; 138; 150; 174; 208; 241; 269; 296].

Definition cell_of (l : nat) : nat := length (filter (fun c => c <= l) cell_starts).

(** The cells that consume that binding *)
Definition consuming_cells (x : string) (d : nat) (tr : list event) : list nat :=
  remove_dups (cell_of <$> reads_of x d tr).

(** The lines at which [x] is assigned *)
Definition assigned_at (x : string) (tr : list event) : list nat :=
  omap (fun e => match e with
                 | Bind l Assign y => if decide (x = y) then Some l else None
                 | _ => None
                 end) tr.

(** The names assigned more than once *)
Definition reassigned (tr : list event) : list string :=
  filter (fun x => 2 <= length (assigned_at x tr)) (remove_dups (stage_outputs tr).*1).

(** Each stage output has exactly one consuming statement. *)
Definition consumed_exactly_once (tr : list event) : Prop :=
  Forall (fun o => length (consumers o.1 o.2 tr) = 1) (stage_outputs tr).

(** Each stage output has at least one consuming statement. *)
Definition consumed_at_least_once (tr : list event) : Prop :=
  Forall (fun o => 1 <= length (consumers o.1 o.2 tr)) (stage_outputs tr).

#[local] Instance consumed_exactly_once_dec (tr : list event) :
  Decision (consumed_exactly_once tr).
Proof. unfold consumed_exactly_once. apply _. Defined.

#[local] Instance consumed_at_least_once_dec (tr : list event) :
  Decision (consumed_at_least_once tr).
Proof. unfold consumed_at_least_once. apply _. Defined.

(** Events that are reads of the given names, and nothing else *)
Definition reads_only (names : list string) (extra : list event) : Prop :=
  Forall (fun e => match e with
                   | Load _ x _ => x ∈ names
                   | Bind _ _ _ => False
                   end) extra.

(** Code that binds no global and reads the given names only *)
Definition read_only_code {A} (names : list string) (m : nb A) : Prop :=
  forall s,
    globals (m s).2 = globals s /\
    line (m s).2 = line s /\
    exists extra, trace (m s).2 = trace s ++ extra /\ reads_only names extra.

(** The free names of the body of [plot_solutions] *)
Definition free_names : list string :=
  ["refine_array_1d"; "np"; "phi_exact"; "plt"; "make_axes_locatable"].

(** The state once the statements up to line [l] have run *)
Definition state_after (l : nat) : state :=
  (block (filter (fun st => st.1 <= l) cells_before_call) initial).2.

(** The trace of the notebook's statements, the call of line 371 included *)
Definition notebook_trace : list event := trace (before_plot initial).2.

(** ** The objects the notebook's names stand for *)

Definition domain_value : pyval := VCall (VExtern "sympde.topology.Square") [] [].

Definition V_value : pyval :=
  VCall (VExtern "sympde.topology.ScalarFunctionSpace") [VStr "V"; domain_value] [].

Definition x_value : pyval := VItem (VAttr domain_value "coordinates") 0.
Definition y_value : pyval := VItem (VAttr domain_value "coordinates") 1.

(** [sin(pi*x)*sin(pi*y)] *)
Definition exact_solution : pyval :=
  VBinOp Mul
    (VCall (VExtern "sympy.sin") [VBinOp Mul (VExtern "sympy.pi") x_value] [])
    (VCall (VExtern "sympy.sin") [VBinOp Mul (VExtern "sympy.pi") y_value] []).

(** [element_of(V, name='u')] *)
Definition trial_function : pyval :=
  VCall (VExtern "sympde.topology.element_of") [V_value] [("name", VStr "u")].

(** [lambdify((x, y), e, 'numpy')] *)
Definition lambdified (e : pyval) : pyval :=
  VCall (VExtern "sympy.lambdify") [VTuple [x_value; y_value]; e; VStr "numpy"] [].

Definition domain_h_value : pyval :=
  VCall (VExtern "psydac.api.discretization.discretize") [domain_value]
    [("ncells", VList [VInt 16; VInt 16]); ("comm", VNone)].

Definition Vh_value : pyval :=
  VCall (VExtern "psydac.api.discretization.discretize") [V_value; domain_h_value]
    [("degree", VList [VInt 3; VInt 3])].

(** [element_of(V, name='v')] *)
Definition test_function : pyval :=
  VCall (VExtern "sympde.topology.element_of") [V_value] [("name", VStr "v")].

Definition a_value : pyval :=
  VCall (VExtern "sympde.expr.BilinearForm")
    [VTuple [trial_function; test_function];
     VCall (VExtern "sympde.expr.integral")
       [domain_value;
        VCall (VExtern "sympde.calculus.dot")
          [VCall (VExtern "sympde.calculus.grad") [test_function] [];
           VCall (VExtern "sympde.calculus.grad") [trial_function] []] []] []] [].

(** [2*pi**2*sin(pi*x)*sin(pi*y)] *)
Definition f_value : pyval :=
  VBinOp Mul
    (VBinOp Mul
       (VBinOp Mul (VInt 2) (VBinOp Pow (VExtern "sympy.pi") (VInt 2)))
       (VCall (VExtern "sympy.sin") [VBinOp Mul (VExtern "sympy.pi") x_value] []))
    (VCall (VExtern "sympy.sin") [VBinOp Mul (VExtern "sympy.pi") y_value] []).

Definition l_value : pyval :=
  VCall (VExtern "sympde.expr.LinearForm")
    [test_function;
     VCall (VExtern "sympde.expr.integral")
       [domain_value; VBinOp Mul f_value test_function] []] [].

Definition bc_value : pyval :=
  VList [VCall (VExtern "sympde.expr.EssentialBC")
           [trial_function; VInt 0; VAttr domain_value "boundary"] []].

Definition equation_value : pyval :=
  VCall (VExtern "sympde.expr.find") [trial_function]
    [("forall", test_function);
     ("lhs", VCall a_value [trial_function; test_function] []);
     ("rhs", VCall l_value [test_function] []);
     ("bc", bc_value)].

Definition equation_h_value : pyval :=
  VCall (VExtern "psydac.api.discretization.discretize")
    [equation_value; domain_h_value; VList [Vh_value; Vh_value]] [].

(** [equation_h.solve()] *)
Definition uh_value : pyval := VCall (VAttr equation_h_value "solve") [] [].

(** ** Reading two-dimensional arrays *)

(** [a[i][j]] *)
Definition entry {T : Type} (a : list (list T)) (i j : nat) : option T :=
  row ← a !! i; row !! j.

(** [a.shape == (rows, cols)] *)
Definition has_shape {T : Type} (a : list (list T)) (rows cols : nat) : Prop :=
  length a = rows /\ Forall (fun row => length row = cols) a.

(** A namespace in which every free name of [plot_solutions] is bound,
    [phi_exact] included, to try the function on *)
Definition complete_namespace : state :=
  State (list_to_map
           ((fun x => (x, Binding 0 Def (VDef x))) <$> free_names))
        [] 371.

(** The two calls of [refine_array_1d] that open the body of
    [plot_solutions] *)
Definition refined_grids {T : Type} `{Number T} (array_of : pyval -> list T)
    (Vh : pyval) (N : Z) : nb (list T * list T) :=
  _ ← name "refine_array_1d";
  eta1 ← call_refine_array_1d (breaks_of array_of Vh 0) N;
  _ ← name "refine_array_1d";
  eta2 ← call_refine_array_1d (breaks_of array_of Vh 1) N;
  mret (eta1, eta2).

(** * Lemmas *)

(** ** The result monad *)

Lemma mapM_Ok_fmap {A B} (f : A -> result B) (g : A -> B) (l : list A) :
  (forall x, x ∈ l -> f x = Ok (g x)) -> mapM f l = Ok (g <$> l).
Proof.
  induction l as [|x l IH]; intros Hf; [reflexivity|].
  cbn. rewrite (Hf x) by left. cbn.
  rewrite IH; [reflexivity|].
  intros y Hy. apply Hf. now right.
Qed.

(** ** refine_array_1d in any arithmetic *)

Section AnyArithmetic.
Context {T : Type} `{Number T}.

Lemma arange_length (num : Z) : length (np.arange num) = Z.to_nat num.
Proof. unfold np.arange. now rewrite length_fmap, length_seq. Qed.

Lemma linspace_but_last (lo hi : T) (N : Z) :
  (-1 <= N)%Z ->
  exists ys, np.linspace lo hi (N + 1) = Ok ys /\ slice_but_last ys = piece lo hi N.
Proof.
  intros HN.
  destruct (Z.eq_dec N (-1)%Z) as [->|HN1]; [eexists; split; reflexivity|].
  destruct (Z.eq_dec N 0%Z) as [->|HN0]; [eexists; split; reflexivity|].
  unfold np.linspace.
  destruct (Z.ltb_spec (N + 1) 0) as [?|_]; [lia|].
  replace (N + 1 - 1)%Z with N by lia.
  destruct (Z.ltb_spec 0 N) as [_|?]; [|lia].
  destruct (Z.ltb_spec 1 (N + 1)) as [_|?]; [|lia].
  eexists; split; [reflexivity|].
  unfold piece, sample.
  destruct (is_zero (divide (minus hi lo) (of_int N)));
    unfold slice_but_last, np.set_last;
    rewrite length_app, length_take, !length_fmap, arange_length; cbn [length];
    replace (Z.to_nat (N + 1)) with (S (Z.to_nat N)) by lia;
    replace ((S (Z.to_nat N) - 1) `min` S (Z.to_nat N) + 1 - 1)%nat
      with (Z.to_nat N) by lia;
    replace (S (Z.to_nat N) - 1)%nat with (Z.to_nat N) by lia;
    rewrite take_app_le
      by (rewrite length_take, !length_fmap, arange_length; lia);
    rewrite take_take, Nat.min_id;
    unfold np.arange;
    rewrite <- !fmap_take, take_seq;
    replace (Z.to_nat N `min` Z.to_nat (N + 1))%nat with (Z.to_nat N) by lia;
    rewrite <- !list_fmap_compose; reflexivity.
Qed.

Lemma linspace_negative (lo hi : T) (N : Z) :
  (N + 1 < 0)%Z -> np.linspace lo hi (N + 1) = Raise ValueError.
Proof.
  intros HN. unfold np.linspace.
  destruct (Z.ltb_spec (N + 1) 0) as [_|?]; [reflexivity|lia].
Qed.

Lemma pieces_by_index (breaks : list T) (N : Z) :
  (-1 <= N)%Z ->
  mapM (fun i =>
          lo ← getitem breaks i;
          hi ← getitem breaks (i + 1);
          ys ← np.linspace lo hi (N + 1);
          mret (slice_but_last ys))
       (range_len_minus_1 breaks)
  = Ok (piece_at breaks N <$> seq 0 (length breaks - 1)).
Proof.
  intros HN. apply mapM_Ok_fmap. intros i Hi.
  apply elem_of_seq in Hi.
  destruct (lookup_lt_is_Some_2 breaks i) as [lo Hlo]; [lia|].
  destruct (lookup_lt_is_Some_2 breaks (i + 1)) as [hi Hhi]; [lia|].
  unfold getitem, piece_at. rewrite Hlo, Hhi. cbn.
  destruct (linspace_but_last lo hi N HN) as (ys & -> & Hys).
  cbn. now rewrite Hys.
Qed.

Lemma pieces_concat (breaks : list T) (N : Z) (final : T) :
  last breaks = Some final ->
  concat (piece_at breaks N <$> seq 0 (length breaks - 1)) ++ [final]
  = refined_points breaks N.
Proof.
  induction breaks as [|lo tl IH]; [discriminate|].
  destruct tl as [|hi tl]; intros Hlast.
  - cbn in *. congruence.
  - replace (length (lo :: hi :: tl) - 1)%nat with (S (length (hi :: tl) - 1))
      by (cbn [length]; lia).
    rewrite <- cons_seq, <- fmap_S_seq, fmap_cons, <- list_fmap_compose.
    cbn [concat]. rewrite <- app_assoc.
    change (refined_points (lo :: hi :: tl) N)
      with (piece lo hi N ++ refined_points (hi :: tl) N).
    rewrite <- IH by exact Hlast.
    reflexivity.
Qed.

Lemma refine_array_1d_unfold_ge (breaks : list T) (N : Z) :
  (2 <= length breaks)%nat -> (-1 <= N)%Z ->
  refine_array_1d breaks N = Ok (refined_points breaks N).
Proof.
  intros Hk HN. unfold refine_array_1d.
  rewrite pieces_by_index by exact HN. cbn.
  destruct (last breaks) as [final|] eqn:Hlast.
  - rewrite <- (pieces_concat breaks N final Hlast).
    destruct (length breaks - 1)%nat as [|n] eqn:Hn; [lia|].
    rewrite <- cons_seq, fmap_cons.
    unfold getitem_last. rewrite Hlast. reflexivity.
  - apply last_None in Hlast. subst breaks. cbn in Hk. lia.
Qed.

Lemma refine_array_1d_unfold (breaks : list T) (N : Z) :
  (2 <= length breaks)%nat -> (0 <= N)%Z ->
  refine_array_1d breaks N = Ok (refined_points breaks N).
Proof. intros Hk HN. apply refine_array_1d_unfold_ge; [exact Hk|lia]. Qed.

Lemma refine_array_1d_few_breaks (breaks : list T) (N : Z) :
  (length breaks < 2)%nat -> refine_array_1d breaks N = Raise ValueError.
Proof.
  intros Hk. destruct breaks as [|b0 [|b1 tl]]; [reflexivity|reflexivity|].
  cbn in Hk. lia.
Qed.

Lemma refine_array_1d_negative_count (breaks : list T) (N : Z) :
  (2 <= length breaks)%nat -> (N < -1)%Z ->
  refine_array_1d breaks N = Raise ValueError.
Proof.
  intros Hk HN. destruct breaks as [|b0 [|b1 tl]]; try (cbn in Hk; lia).
  unfold refine_array_1d, range_len_minus_1.
  cbn [length Nat.sub seq mapM getitem lookup list_lookup].
  change (getitem (b0 :: b1 :: tl) (0 + 1)) with (Ok b1 : result T).
  cbn [mbind result_bind].
  rewrite linspace_negative by lia. reflexivity.
Qed.

(** Every outcome of [refine_array_1d], read off its arguments *)
Lemma refine_array_1d_outcome (breaks : list T) (N : Z) :
  match refine_array_1d breaks N with
  | Ok refined =>
      (2 <= length breaks)%nat /\ (-1 <= N)%Z /\ refined = refined_points breaks N
  | Raise e => e = ValueError /\ ((length breaks < 2)%nat \/ (N < -1)%Z)
  end.
Proof.
  destruct (le_lt_dec 2 (length breaks)) as [Hk|Hk].
  - destruct (Z_lt_le_dec N (-1)%Z) as [HN|HN].
    + rewrite refine_array_1d_negative_count by assumption. auto.
    + rewrite refine_array_1d_unfold_ge by assumption. auto.
  - rewrite refine_array_1d_few_breaks by assumption. auto.
Qed.

(** ** The refined points *)

Lemma piece_length (lo hi : T) (N : Z) : length (piece lo hi N) = Z.to_nat N.
Proof. unfold piece. now rewrite length_fmap, length_seq. Qed.

Lemma piece_lookup (lo hi : T) (N : Z) (j : nat) :
  (j < Z.to_nat N)%nat -> piece lo hi N !! j = Some (sample lo hi N j).
Proof.
  intros Hj. unfold piece.
  now rewrite list_lookup_fmap, lookup_seq_lt.
Qed.

Lemma piece_elem (lo hi : T) (N : Z) (x : T) :
  x ∈ piece lo hi N -> exists j, (j < Z.to_nat N)%nat /\ x = sample lo hi N j.
Proof.
  unfold piece. intros (j & -> & Hj)%list_elem_of_fmap.
  apply elem_of_seq in Hj. exists j. split; [lia|reflexivity].
Qed.

Lemma refined_points_length (breaks : list T) (N : Z) :
  breaks <> [] ->
  length (refined_points breaks N) = ((length breaks - 1) * Z.to_nat N + 1)%nat.
Proof.
  induction breaks as [|lo tl IH]; [congruence|]. intros _.
  destruct tl as [|hi tl]; [reflexivity|].
  change (refined_points (lo :: hi :: tl) N)
    with (piece lo hi N ++ refined_points (hi :: tl) N).
  rewrite length_app, piece_length, IH by discriminate.
  cbn [length]. lia.
Qed.

Lemma refined_points_last (breaks : list T) (N : Z) :
  last (refined_points breaks N) = last breaks.
Proof.
  induction breaks as [|lo tl IH]; [reflexivity|].
  destruct tl as [|hi tl]; [reflexivity|].
  change (refined_points (lo :: hi :: tl) N)
    with (piece lo hi N ++ refined_points (hi :: tl) N).
  rewrite last_cons_cons, <- IH, last_app.
  assert (is_Some (last (refined_points (hi :: tl) N))) as [x ->];
    [|reflexivity].
  rewrite IH. now apply last_is_Some.
Qed.

Lemma refined_points_lookup (breaks : list T) (N : Z) (i j : nat) (lo hi : T) :
  breaks !! i = Some lo -> breaks !! S i = Some hi -> (j < Z.to_nat N)%nat ->
  refined_points breaks N !! (i * Z.to_nat N + j)%nat = Some (sample lo hi N j).
Proof.
  revert i. induction breaks as [|b0 tl IH]; intros i Hlo Hhi Hj; [discriminate|].
  destruct tl as [|b1 tl]; [discriminate|].
  change (refined_points (b0 :: b1 :: tl) N)
    with (piece b0 b1 N ++ refined_points (b1 :: tl) N).
  destruct i as [|i].
  - cbn in Hlo, Hhi. injection Hlo as ->. injection Hhi as ->.
    rewrite lookup_app_l by (rewrite piece_length; lia).
    now apply piece_lookup.
  - rewrite lookup_app_r by (rewrite piece_length; lia).
    rewrite piece_length.
    replace (S i * Z.to_nat N + j - Z.to_nat N)%nat with (i * Z.to_nat N + j)%nat
      by lia.
    now apply IH.
Qed.

Lemma refined_points_no_piece (breaks : list T) (N : Z) (final : T) :
  (N <= 0)%Z -> last breaks = Some final -> refined_points breaks N = [final].
Proof.
  intros HN. induction breaks as [|lo tl IH]; [discriminate|].
  destruct tl as [|hi tl]; intros Hlast.
  - cbn in Hlast. now injection Hlast as ->.
  - change (refined_points (lo :: hi :: tl) N)
      with (piece lo hi N ++ refined_points (hi :: tl) N).
    unfold piece at 1. replace (Z.to_nat N) with 0%nat by lia.
    apply IH. exact Hlast.
Qed.

Lemma refined_points_zero (breaks : list T) (final : T) :
  last breaks = Some final -> refined_points breaks 0 = [final].
Proof. now apply refined_points_no_piece. Qed.

Lemma refined_points_cons (breaks : list T) (N : Z) :
  breaks <> [] -> exists p rest, refined_points breaks N = p :: rest.
Proof.
  intros Hne. pose proof (refined_points_length breaks N Hne) as Hlen.
  destruct (refined_points breaks N) as [|p rest];
    [rewrite Nat.add_1_r in Hlen; discriminate|].
  now exists p, rest.
Qed.

(** ** Strictly increasing lists *)

Lemma increasing_cons (x : T) (l : list T) :
  increasing l -> (forall y, head l = Some y -> less x y = true) ->
  increasing (x :: l).
Proof.
  intros Hl Hx. destruct l as [|y l]; [exact I|].
  split; [apply Hx; reflexivity|exact Hl].
Qed.

Lemma increasing_tail (x : T) (l : list T) : increasing (x :: l) -> increasing l.
Proof. destruct l as [|y l]; [trivial|]. now intros [_ Hl]. Qed.

Lemma increasing_app (l1 l2 : list T) :
  increasing l1 -> increasing l2 ->
  (forall x y, last l1 = Some x -> head l2 = Some y -> less x y = true) ->
  increasing (l1 ++ l2).
Proof.
  induction l1 as [|x l1 IH]; intros H1 H2 Hsep; [exact H2|].
  cbn [app]. apply increasing_cons.
  - apply IH; [exact (increasing_tail _ _ H1)|exact H2|].
    intros a b Ha Hb. apply Hsep; [|exact Hb].
    destruct l1; [discriminate|exact Ha].
  - intros y Hy. destruct l1 as [|z l1].
    + apply Hsep; [reflexivity|exact Hy].
    + cbn in Hy. injection Hy as <-. exact (proj1 H1).
Qed.

Lemma increasing_fmap_seq (f : nat -> T) (k n : nat) :
  (forall j, less (f j) (f (S j)) = true) -> increasing (f <$> seq k n).
Proof.
  intros Hf. revert k. induction n as [|n IH]; intros k; [exact I|].
  cbn [seq fmap list_fmap]. apply increasing_cons; [apply IH|].
  intros y Hy. destruct n; [discriminate|].
  cbn in Hy. injection Hy as <-. apply Hf.
Qed.

End AnyArithmetic.

(** ** Exact arithmetic *)

Section ExactArithmetic.
Local Open Scope Q_scope.

Lemma less_Qlt (x y : Q) : less x y = true <-> x < y.
Proof. unfold less, Q_number, Qlt. apply Z.ltb_lt. Qed.

Lemma inject_N_pos (N : Z) : (1 <= N)%Z -> 0 < inject_Z N.
Proof. intros HN. change 0 with (inject_Z 0). rewrite <- Zlt_Qlt. lia. Qed.

(** Without rounding the [j]-th sample is [j * (hi - lo) / N + lo], whichever
    of the two formulas of [linspace] computes it. *)
Lemma sample_exact (lo hi : Q) (N : Z) (j : nat) :
  (1 <= N)%Z ->
  sample lo hi N j == lo + inject_Z (Z.of_nat j) * (hi - lo) / inject_Z N.
Proof.
  intros HN. pose proof (inject_N_pos N HN).
  unfold sample. cbn [is_zero of_int plus minus times divide Q_number].
  destruct (Qeq_bool ((hi - lo) / inject_Z N) 0); field; lra.
Qed.

Section Samples.
Variables (lo hi : Q) (N : Z).
Hypothesis Hlohi : lo < hi.
Hypothesis HN : (1 <= N)%Z.

Lemma sample_succ (j : nat) : sample lo hi N j < sample lo hi N (S j).
Proof.
  rewrite !sample_exact by exact HN. pose proof (inject_N_pos N HN) as Hpos.
  rewrite Nat2Z.inj_succ, <- Z.add_1_r, inject_Z_plus.
  change (inject_Z 1) with 1.
  assert (0 < (hi - lo) / inject_Z N) as Hstep.
  { apply Qlt_shift_div_l; [exact Hpos|lra]. }
  assert ((inject_Z (Z.of_nat j) + 1) * (hi - lo) / inject_Z N
          == inject_Z (Z.of_nat j) * (hi - lo) / inject_Z N
             + (hi - lo) / inject_Z N) as E by (field; lra).
  rewrite E. lra.
Qed.

Lemma sample_ge_lo (j : nat) : lo <= sample lo hi N j.
Proof.
  rewrite sample_exact by exact HN. pose proof (inject_N_pos N HN) as Hpos.
  assert (0 <= inject_Z (Z.of_nat j)) as Hj.
  { change 0 with (inject_Z 0). rewrite <- Zle_Qle. lia. }
  assert (0 <= inject_Z (Z.of_nat j) * (hi - lo) / inject_Z N).
  { apply Qle_shift_div_l; [exact Hpos|]. nra. }
  lra.
Qed.

Lemma sample_lt_hi (j : nat) : (j < Z.to_nat N)%nat -> sample lo hi N j < hi.
Proof.
  intros Hj. rewrite sample_exact by exact HN.
  pose proof (inject_N_pos N HN) as Hpos.
  assert (inject_Z (Z.of_nat j) < inject_Z N) as Hlt by (rewrite <- Zlt_Qlt; lia).
  assert (inject_Z (Z.of_nat j) * (hi - lo) / inject_Z N < hi - lo).
  { apply Qlt_shift_div_r; [exact Hpos|]. nra. }
  lra.
Qed.

Lemma sample_gt_lo (j : nat) : (0 < j)%nat -> lo < sample lo hi N j.
Proof.
  intros Hj. rewrite sample_exact by exact HN.
  pose proof (inject_N_pos N HN) as Hpos.
  assert (0 < inject_Z (Z.of_nat j)) as Hj0.
  { change 0 with (inject_Z 0). rewrite <- Zlt_Qlt. lia. }
  assert (0 < inject_Z (Z.of_nat j) * (hi - lo) / inject_Z N).
  { apply Qlt_shift_div_l; [exact Hpos|]. nra. }
  lra.
Qed.

End Samples.

Lemma exact_head (lo : Q) (tl : list Q) (N : Z) :
  (1 <= N)%Z ->
  exists x, head (refined_points (lo :: tl) N) = Some x /\ x == lo.
Proof.
  intros HN. destruct tl as [|hi tl].
  - exists lo. split; [reflexivity|apply Qeq_refl].
  - exists (sample lo hi N 0). split.
    + cbn [refined_points]. unfold piece.
      destruct (Z.to_nat N) as [|n] eqn:E; [lia|]. reflexivity.
    + rewrite sample_exact by exact HN. pose proof (inject_N_pos N HN).
      change (inject_Z (Z.of_nat 0)) with 0. field. lra.
Qed.

Lemma exact_increasing (breaks : list Q) (N : Z) :
  (1 <= N)%Z -> increasing breaks -> increasing (refined_points breaks N).
Proof.
  intros HN. induction breaks as [|lo tl IH]; [trivial|].
  destruct tl as [|hi tl]; [trivial|]. intros [Hlohi Htl].
  apply less_Qlt in Hlohi.
  change (refined_points (lo :: hi :: tl) N)
    with (piece lo hi N ++ refined_points (hi :: tl) N).
  apply increasing_app.
  - apply increasing_fmap_seq. intros j. apply less_Qlt. now apply sample_succ.
  - apply IH, Htl.
  - intros x y Hx Hy. apply less_Qlt.
    apply last_Some_elem_of, piece_elem in Hx as (j & Hj & ->).
    destruct (exact_head hi tl N HN) as (y' & Hy' & Heq).
    rewrite Hy in Hy'. injection Hy' as <-.
    rewrite Heq. now apply sample_lt_hi.
Qed.

Lemma increasing_consecutive (breaks : list Q) (i : nat) (lo hi : Q) :
  increasing breaks -> breaks !! i = Some lo -> breaks !! S i = Some hi -> lo < hi.
Proof.
  revert i. induction breaks as [|c l IH]; intros i Hinc Hlo Hhi; [discriminate|].
  destruct l as [|c' l]; [discriminate|].
  destruct i as [|i].
  - cbn in Hlo, Hhi. injection Hlo as ->. injection Hhi as ->.
    apply less_Qlt. exact (proj1 Hinc).
  - exact (IH i (proj2 Hinc) Hlo Hhi).
Qed.

End ExactArithmetic.

(** ** binary64 *)

Lemma binary64_eq_refl (x : spec_float) : is_nan x = false -> SFeqb x x = true.
Proof.
  destruct x as [s|s| |s m e]; try discriminate; intros _; unfold SFeqb; cbn.
  - reflexivity.
  - now destruct s.
  - rewrite Z.compare_refl.
    assert (Pos.compare_cont Eq m m = Eq) as -> by apply Pos.compare_cont_refl.
    now destruct s.
Qed.

(** [0 * step + lo == lo] when [step] is a finite non-zero float *)
Lemma binary64_first_sample (lo hi : spec_float) (N : Z) :
  finite_nonzero (divide (minus hi lo) (of_int N)) = true ->
  is_nan lo = false ->
  SFeqb (sample lo hi N 0) lo = true.
Proof.
  intros Hstep Hlo. unfold sample.
  destruct (divide (minus hi lo) (of_int N)) as [s|s| |s m e];
    try discriminate.
  assert (is_zero (S754_finite s m e) = false) as -> by (now destruct s).
  change (of_int (Z.of_nat 0)) with (S754_zero false).
  change (times (S754_zero false) (S754_finite s m e)) with (S754_zero (xorb false s)).
  destruct lo as [s'|s'| |s' m' e']; try discriminate.
  - cbn. destruct s, s'; reflexivity.
  - cbn. now destruct s'.
  - change (plus (S754_zero (xorb false s)) (S754_finite s' m' e'))
      with (S754_finite s' m' e').
    now apply binary64_eq_refl.
Qed.

(** * refine_array_1d *)

(** ** On small inputs *)

Example refine_array_1d_two_subdivisions :
  refine_array_1d [0; 1; 3]%Q 2 = Ok [0 # 2; 1 # 2; 2 # 2; 4 # 2; 3]%Q.
Proof. reflexivity. Qed.

Example refine_array_1d_one_subdivision :
  refine_array_1d [0; 1]%Q 1 = Ok [0; 1]%Q.
Proof. reflexivity. Qed.

(** [linspace(lo, hi, 0)] is empty as well. *)
Example refine_array_1d_minus_one : refine_array_1d [0; 1; 3]%Q (-1) = Ok [3]%Q.
Proof. reflexivity. Qed.

(** [linspace] refuses a negative number of samples. *)
Example refine_array_1d_negative :
  refine_array_1d [0; 1; 3]%Q (-2) = Raise ValueError.
Proof. reflexivity. Qed.

(** With fewer than two breaks there is nothing to concatenate. *)
Example refine_array_1d_single_break : refine_array_1d [5]%Q 2 = Raise ValueError.
Proof. reflexivity. Qed.

(** In binary64, [refine_array_1d([0.0, 1.0], 10)] holds
    [0.30000000000000004] at index 3. *)
Example refine_array_1d_unit_interval :
  exists refined,
    refine_array_1d [binary64.zero; float_one] 10 = Ok refined /\
    length refined = 11%nat /\
    refined !! 3%nat = Some (binary64.of_scaled 5404319552844596 (-54)).
Proof. eexists. split; [vm_compute; reflexivity|]. split; reflexivity. Qed.

(** When [hi - lo] overflows the step is infinite and the first sample,
    [0 * inf + lo], is not a number. *)
Example refine_array_1d_overflow :
  refine_array_1d [SFopp float_1e308; float_1e308] 2
  = Ok [binary64.nan; binary64.inf; float_1e308].
Proof. vm_compute. reflexivity. Qed.

(** ** The claims *)

(** C8, as stated, fails in binary64: between [1.0] and the next float,
    [refine_array_1d(breaks, 2)] returns [1.0] twice. *)
Lemma refine_array_1d_adjacent_floats :
  increasing [float_one; float_after_one] /\
  refine_array_1d [float_one; float_after_one] 2
  = Ok [float_one; float_one; float_after_one] /\
  ~ increasing [float_one; float_one; float_after_one].
Proof.
  split; [split; [vm_compute; reflexivity|exact I]|].
  split; [vm_compute; reflexivity|].
  intros [Hlt _]. vm_compute in Hlt. discriminate.
Qed.

(** C8, amended. Whenever [refine_array_1d(breaks, N)] returns with [N >= 1],
    there are [k >= 2] breaks and the array has exactly [(k-1)*N + 1] points:
    the interval from [breaks[i]] to [breaks[i+1]] contributes the first [N]
    samples of its [linspace], and [breaks[-1]] comes last.  In binary64 the
    first point equals [breaks[0]] whenever the first step
    [(breaks[1] - breaks[0]) / N] is a finite non-zero float.  In exact
    arithmetic, for strictly increasing breaks, the points are strictly
    increasing, the first equals [breaks[0]], and the samples of an interval
    are [breaks[i] + j*(breaks[i+1] - breaks[i])/N], [j = 0 .. N-1]: its left
    end and [N-1] interior points. *)
Theorem refine_array_1d_points :
  (forall (T : Type) (num : Number T) (breaks refined : list T) (N : Z),
      refine_array_1d breaks N = Ok refined -> (1 <= N)%Z ->
      (2 <= length breaks)%nat /\
      length refined = ((length breaks - 1) * Z.to_nat N + 1)%nat /\
      last refined = last breaks /\
      forall i j lo hi,
        breaks !! i = Some lo -> breaks !! S i = Some hi -> (j < Z.to_nat N)%nat ->
        refined !! (i * Z.to_nat N + j)%nat = Some (sample lo hi N j)) /\
  (forall (b0 b1 : spec_float) (tl refined : list spec_float) (N : Z),
      refine_array_1d (b0 :: b1 :: tl) N = Ok refined -> (1 <= N)%Z ->
      finite_nonzero (divide (minus b1 b0) (of_int N)) = true ->
      is_nan b0 = false ->
      exists first, head refined = Some first /\ SFeqb first b0 = true) /\
  (forall (breaks refined : list Q) (N : Z),
      refine_array_1d breaks N = Ok refined -> (1 <= N)%Z -> increasing breaks ->
      increasing refined /\
      (exists first b0,
          head refined = Some first /\ head breaks = Some b0 /\ (first == b0)%Q) /\
      forall i j lo hi,
        breaks !! i = Some lo -> breaks !! S i = Some hi -> (j < Z.to_nat N)%nat ->
        exists p, refined !! (i * Z.to_nat N + j)%nat = Some p /\
                  (p == lo + inject_Z (Z.of_nat j) * (hi - lo) / inject_Z N)%Q /\
                  (lo <= p)%Q /\ (p < hi)%Q /\ ((0 < j)%nat -> (lo < p)%Q)).
Proof.
  split; [|split].
  - intros T num breaks refined N Hret HN.
    pose proof (refine_array_1d_outcome breaks N) as Hout.
    rewrite Hret in Hout. destruct Hout as (Hk & _ & ->).
    split; [exact Hk|].
    split; [apply refined_points_length; intros ->; cbn in Hk; lia|].
    split; [apply refined_points_last|].
    intros i j lo hi. apply refined_points_lookup.
  - intros b0 b1 tl refined N Hret HN Hstep Hnan.
    pose proof (refine_array_1d_outcome (b0 :: b1 :: tl) N) as Hout.
    rewrite Hret in Hout. destruct Hout as (_ & _ & ->).
    exists (sample b0 b1 N 0). split.
    + cbn [refined_points]. unfold piece.
      destruct (Z.to_nat N) as [|n] eqn:E; [lia|]. reflexivity.
    + now apply binary64_first_sample.
  - intros breaks refined N Hret HN Hinc.
    pose proof (refine_array_1d_outcome breaks N) as Hout.
    rewrite Hret in Hout. destruct Hout as (Hk & _ & ->).
    split; [now apply exact_increasing|].
    destruct breaks as [|b0 tl]; [cbn in Hk; lia|].
    split.
    { destruct (exact_head b0 tl N HN) as (first & Hfirst & Heq).
      now exists first, b0. }
    intros i j lo hi Hlo Hhi Hj.
    pose proof (increasing_consecutive _ i lo hi Hinc Hlo Hhi) as Hlohi.
    exists (sample lo hi N j).
    split; [now apply refined_points_lookup|].
    split; [now apply sample_exact|].
    split; [now apply sample_ge_lo|].
    split; [now apply sample_lt_hi|].
    intros Hj0. now apply sample_gt_lo.
Qed.

Lemma refine_array_1d_points_witness :
  (length [0 # 2; 1 # 2; 2 # 2; 4 # 2; 3]%Q
   = ((length [0; 1; 3]%Q - 1) * Z.to_nat 2 + 1)%nat /\
   increasing [0 # 2; 1 # 2; 2 # 2; 4 # 2; 3]%Q) /\
  exists first,
    head [float_one; float_one; float_after_one] = Some first /\
    SFeqb first float_one = true.
Proof.
  destruct refine_array_1d_points as (Hany & Hfloat & Hexact).
  split.
  - split.
    + apply (Hany Q _ [0; 1; 3]%Q _ 2%Z); [reflexivity|lia].
    + apply (Hexact [0; 1; 3]%Q _ 2%Z); [reflexivity|lia|].
      cbn. split; [reflexivity|split; [reflexivity|exact I]].
  - apply (Hfloat float_one float_after_one [] _ 2%Z);
      [vm_compute; reflexivity|lia|vm_compute; reflexivity|reflexivity].
Defined.

(** C1. The number of points [refine_array_1d] returns for [k >= 2] breaks and
    [N >= 1] is [(k-1)*N + 1]; it is not the [k + (k-1)*N] that inserting [N]
    points between consecutive breaks would give. *)
Theorem refine_array_1d_count {T : Type} `{Number T} (breaks : list T) (N : Z) :
  (2 <= length breaks)%nat -> (1 <= N)%Z ->
  exists refined,
    refine_array_1d breaks N = Ok refined /\
    length refined = ((length breaks - 1) * Z.to_nat N + 1)%nat /\
    length refined <> (length breaks + (length breaks - 1) * Z.to_nat N)%nat.
Proof.
  intros Hk HN. exists (refined_points breaks N).
  split; [apply refine_array_1d_unfold; [exact Hk|lia]|].
  assert (breaks <> []) as Hne by (intros ->; cbn in Hk; lia).
  rewrite (refined_points_length breaks N Hne).
  split; [reflexivity|lia].
Qed.

Lemma refine_array_1d_count_witness :
  exists refined,
    refine_array_1d [0; 1]%Q 1 = Ok refined /\
    length refined = ((length [0; 1]%Q - 1) * Z.to_nat 1 + 1)%nat /\
    length refined <> (length [0; 1]%Q + (length [0; 1]%Q - 1) * Z.to_nat 1)%nat.
Proof. apply (refine_array_1d_count [0; 1]%Q 1); [cbn; lia|lia]. Defined.

(** C9. With [N = 0] and at least two breaks, [refine_array_1d] returns the
    one-element array holding the last break; the array it was given is not
    what it returns. *)
Theorem refine_array_1d_zero {T : Type} `{Number T} (breaks : list T) :
  (2 <= length breaks)%nat ->
  exists final,
    last breaks = Some final /\
    refine_array_1d breaks 0 = Ok [final] /\
    refine_array_1d breaks 0 <> Ok breaks.
Proof.
  intros Hk.
  destruct (last breaks) as [final|] eqn:Hlast.
  - exists final. split; [reflexivity|].
    rewrite refine_array_1d_unfold by (exact Hk || lia).
    rewrite (refined_points_zero breaks final Hlast).
    split; [reflexivity|].
    intros [= <-]. cbn in Hk. lia.
  - apply last_None in Hlast. subst breaks. cbn in Hk. lia.
Qed.

Lemma refine_array_1d_zero_witness :
  exists final,
    last [0; 1; 3]%Q = Some final /\
    refine_array_1d [0; 1; 3]%Q 0 = Ok [final] /\
    refine_array_1d [0; 1; 3]%Q 0 <> Ok [0; 1; 3]%Q.
Proof. apply (refine_array_1d_zero [0; 1; 3]%Q). cbn. lia. Defined.

(** * The notebook *)

(** ** Running notebook code *)

Lemma bind_Ok {A B} (m : nb A) (f : A -> nb B) (s s' : state) (a : A) :
  m s = (Ok a, s') -> (m ≫= f) s = f a s'.
Proof. intros H. unfold mbind, nb_bind. now rewrite H. Qed.

Lemma bind_Raise {A B} (m : nb A) (f : A -> nb B) (s s' : state) (e : exn) :
  m s = (Raise e, s') -> (m ≫= f) s = (Raise e, s').
Proof. intros H. unfold mbind, nb_bind. now rewrite H. Qed.

Lemma lift_Ok {A} (r : result A) (a : A) (s : state) :
  r = Ok a -> lift r s = (Ok a, s).
Proof. now intros ->. Qed.

Lemma lift_Raise {A} (r : result A) (e : exn) (s : state) :
  r = Raise e -> lift r s = (Raise e, s).
Proof. now intros ->. Qed.

Lemma block_app (l1 l2 : list statement) (s : state) :
  block (l1 ++ l2) s =
  match block l1 s with
  | (Ok _, s') => block l2 s'
  | (Raise e, s') => (Raise e, s')
  end.
Proof.
  revert s. induction l1 as [|st l1 IH]; intros s; [reflexivity|].
  cbn [app block]. unfold mbind, nb_bind.
  destruct (run_statement st s) as [[[]|e] s1]; [apply IH|reflexivity].
Qed.

Lemma name_bound (x : string) (b : binding) (s : state) :
  globals s !! x = Some b ->
  name x s = (Ok (b_value b),
              State (globals s) (trace s ++ [Load (line s) x (b_line b)]) (line s)).
Proof. intros H. unfold name. now rewrite H. Qed.

Lemma name_unbound (x : string) (s : state) :
  globals s !! x = None -> x ∉ builtins -> name x s = (Raise (NameError x), s).
Proof.
  intros H Hb. unfold name. rewrite H.
  now rewrite bool_decide_eq_false_2.
Qed.

(** ** Code that only reads globals *)

Lemma reads_only_app (names : list string) (e1 e2 : list event) :
  reads_only names e1 -> reads_only names e2 -> reads_only names (e1 ++ e2).
Proof. unfold reads_only. intros. now apply Forall_app. Qed.

Lemma read_only_ret {A} (names : list string) (a : A) :
  read_only_code names (mret a : nb A).
Proof.
  intros s. repeat split. exists []. split; [now rewrite app_nil_r|constructor].
Qed.

Lemma read_only_lift {A} (names : list string) (r : result A) :
  read_only_code names (lift r).
Proof.
  intros s. repeat split. exists []. split; [now rewrite app_nil_r|constructor].
Qed.

Lemma read_only_name (names : list string) (x : string) :
  x ∈ names -> read_only_code names (name x).
Proof.
  intros Hx s. unfold name.
  destruct (globals s !! x) as [b|]; cbn.
  - repeat split. eexists. split; [reflexivity|].
    constructor; [exact Hx|constructor].
  - destruct (bool_decide _); cbn; repeat split;
      exists []; (split; [now rewrite app_nil_r|constructor]).
Qed.

Lemma read_only_bind {A B} (names : list string) (m : nb A) (f : A -> nb B) :
  read_only_code names m -> (forall a, read_only_code names (f a)) ->
  read_only_code names (m ≫= f).
Proof.
  intros Hm Hf s. unfold mbind, nb_bind.
  destruct (Hm s) as (Hg & Hl & extra & Ht & He).
  destruct (m s) as [[a|e] s1]; cbn [snd] in *.
  - destruct (Hf a s1) as (Hg' & Hl' & extra' & Ht' & He').
    split; [congruence|]. split; [congruence|].
    exists (extra ++ extra'). split; [|now apply reads_only_app].
    rewrite Ht', Ht. now rewrite app_assoc.
  - split; [exact Hg|]. split; [exact Hl|]. now exists extra.
Qed.

Lemma read_only_mapM {A B} (names : list string) (f : A -> nb B) (l : list A) :
  (forall a, read_only_code names (f a)) -> read_only_code names (mapM f l).
Proof.
  intros Hf. induction l as [|a l IH]; [apply read_only_ret|].
  cbn [mapM]. apply read_only_bind; [apply Hf|]. intros b.
  apply read_only_bind; [exact IH|]. intros bs. apply read_only_ret.
Qed.

Lemma reads_of_reads_only (names : list string) (x : string) (d : nat)
    (extra : list event) :
  reads_only names extra -> x ∉ names -> reads_of x d extra = [].
Proof.
  intros He Hx. induction He as [|e extra H _ IH]; [reflexivity|].
  unfold reads_of. cbn [omap list_omap]. fold (reads_of x d extra).
  destruct e as [l k y|l y d']; [destruct H|].
  destruct (decide _) as [[-> _]|_]; [contradiction|exact IH].
Qed.

Lemma stage_outputs_reads_only (names : list string) (tr extra : list event) :
  reads_only names extra -> stage_outputs (tr ++ extra) = stage_outputs tr.
Proof.
  intros He. unfold stage_outputs. rewrite omap_app.
  rewrite <- (app_nil_r (omap _ tr)) at 2. f_equal.
  induction He as [|e extra H _ IH]; [reflexivity|].
  cbn [omap list_omap]. destruct e as [l k y|l y d']; [destruct H|exact IH].
Qed.

Lemma assigned_at_reads_only (names : list string) (x : string)
    (tr extra : list event) :
  reads_only names extra -> assigned_at x (tr ++ extra) = assigned_at x tr.
Proof.
  intros He. unfold assigned_at. rewrite omap_app.
  rewrite <- (app_nil_r (omap _ tr)) at 2. f_equal.
  induction He as [|e extra H _ IH]; [reflexivity|].
  cbn [omap list_omap]. destruct e as [l k y|l y d']; [destruct H|exact IH].
Qed.

Lemma reads_of_app (x : string) (d : nat) (tr extra : list event) :
  reads_of x d (tr ++ extra) = reads_of x d tr ++ reads_of x d extra.
Proof. unfold reads_of. apply omap_app. Qed.

(** ** plot_solutions and the name [phi_exact] *)

Section LibrariesFacts.

Context {T : Type} `{Number T}.
Variable array_of : pyval -> list T.
Variable apply2 : pyval -> T -> T -> T.

Lemma np_not_builtin : "np" ∉ builtins.
Proof.
  unfold builtins. intros Hin. apply list_elem_of_In in Hin.
  cbn in Hin. intuition discriminate.
Qed.

(** With [np] bound, the rounds of the comprehension give what the pure
    comprehension gives, the first exception included. *)
Lemma call_pieces_bound (f : nat -> result (list T)) (l : list nat)
    (bn : binding) (s : state) :
  globals s !! "np" = Some bn ->
  exists s',
    mapM (fun i => _ ← name "np"; lift (f i)) l s = (mapM f l, s') /\
    globals s' = globals s.
Proof.
  revert s. induction l as [|i l IH]; intros s Hn.
  - exists s. split; reflexivity.
  - cbn [mapM].
    pose (s1 := State (globals s) (trace s ++ [Load (line s) "np" (b_line bn)])
                      (line s)).
    assert ((name "np" ≫= fun _ => lift (f i)) s = (f i, s1)) as Hstep
      by (erewrite bind_Ok by (apply name_bound; exact Hn); reflexivity).
    destruct (f i) as [a|e].
    + erewrite bind_Ok by exact Hstep.
      destruct (IH s1 Hn) as (s2 & Hrest & Hg).
      destruct (mapM f l) as [bs|e].
      * erewrite bind_Ok by exact Hrest. exists s2. split; [reflexivity|exact Hg].
      * erewrite bind_Raise by exact Hrest. exists s2. split; [reflexivity|exact Hg].
    + erewrite bind_Raise by exact Hstep. exists s1. split; reflexivity.
Qed.

(** With [np] bound, a call of [refine_array_1d] returns or raises what the
    function computes, and binds nothing. *)
Lemma call_refine_array_1d_bound (breaks : list T) (N : Z) (bn : binding)
    (s : state) :
  globals s !! "np" = Some bn ->
  exists s',
    call_refine_array_1d breaks N s = (refine_array_1d breaks N, s') /\
    globals s' = globals s.
Proof.
  intros Hn. unfold call_refine_array_1d, refine_array_1d.
  erewrite bind_Ok by (apply name_bound; exact Hn).
  edestruct (call_pieces_bound
               (fun i => lo ← getitem breaks i;
                         hi ← getitem breaks (i + 1);
                         ys ← np.linspace lo hi (N + 1);
                         mret (slice_but_last ys))
               (range_len_minus_1 breaks) bn
               (State (globals s) (trace s ++ [Load (line s) "np" (b_line bn)])
                      (line s))) as (s1 & Hpieces & Hg1).
  { cbn [globals]. exact Hn. }
  cbn [globals] in Hg1. revert Hpieces.
  destruct (mapM (fun i => getitem breaks i ≫= _) (range_len_minus_1 breaks))
    as [pieces|e]; intros Hpieces.
  - erewrite bind_Ok by exact Hpieces. cbn [mbind result_bind].
    destruct (np.concatenate pieces) as [refined|e].
    + erewrite bind_Ok by reflexivity.
      erewrite bind_Ok by (apply name_bound; rewrite Hg1; exact Hn).
      destruct (getitem_last breaks) as [final|e].
      * erewrite bind_Ok by reflexivity.
        eexists. split; [reflexivity|exact Hg1].
      * erewrite bind_Raise by reflexivity.
        eexists. split; [reflexivity|exact Hg1].
    + erewrite bind_Raise by reflexivity.
      eexists. split; [reflexivity|exact Hg1].
  - erewrite bind_Raise by exact Hpieces.
    eexists. split; [reflexivity|exact Hg1].
Qed.

(** Without [np] the call stops at its first mention. *)
Lemma call_refine_array_1d_unbound (breaks : list T) (N : Z) (s : state) :
  globals s !! "np" = None ->
  call_refine_array_1d breaks N s = (Raise (NameError "np"), s).
Proof.
  intros Hn. unfold call_refine_array_1d.
  erewrite bind_Raise; [reflexivity|].
  apply name_unbound; [exact Hn|exact np_not_builtin].
Qed.

Lemma call_refine_array_1d_inv (breaks : list T) (N : Z) (s s' : state)
    (eta : list T) :
  call_refine_array_1d breaks N s = (Ok eta, s') ->
  refine_array_1d breaks N = Ok eta /\
  globals s' = globals s /\
  is_Some (globals s !! "np").
Proof.
  intros Hcall. destruct (globals s !! "np") as [bn|] eqn:Hn.
  - destruct (call_refine_array_1d_bound breaks N bn s Hn) as (s1 & Hrun & Hg).
    rewrite Hrun in Hcall. injection Hcall as -> <-. eauto.
  - rewrite call_refine_array_1d_unbound in Hcall by exact Hn. discriminate.
Qed.

Lemma plot_solutions_unbound (Vh uh ue : pyval) (N : Z) (s : state) :
  globals s !! "phi_exact" = None ->
  is_Some (globals s !! "refine_array_1d") ->
  is_Some (globals s !! "np") ->
  2 <= length (breaks_of array_of Vh 0) ->
  2 <= length (breaks_of array_of Vh 1) ->
  (0 <= N)%Z ->
  (plot_solutions array_of apply2 Vh uh ue N s).1 = Raise (NameError "phi_exact").
Proof.
  intros Hphi [br Hr] [bn Hn] Hk0 Hk1 HN.
  destruct (refined_points_cons (breaks_of array_of Vh 0) N) as (p1 & r1 & E1).
  { intros E. rewrite E in Hk0. cbn in Hk0. lia. }
  destruct (refined_points_cons (breaks_of array_of Vh 1) N) as (p2 & r2 & E2).
  { intros E. rewrite E in Hk1. cbn in Hk1. lia. }
  unfold plot_solutions.
  erewrite bind_Ok by (apply name_bound; exact Hr).
  edestruct (call_refine_array_1d_bound (breaks_of array_of Vh 0) N bn)
    as (s1 & Hc1 & Hg1); [|erewrite bind_Ok
      by (rewrite Hc1, (refine_array_1d_unfold _ _ Hk0 HN); reflexivity)];
    [exact Hn|].
  cbn [globals] in Hg1.
  erewrite bind_Ok by (apply name_bound; rewrite Hg1; exact Hr).
  edestruct (call_refine_array_1d_bound (breaks_of array_of Vh 1) N bn)
    as (s2 & Hc2 & Hg2); [|erewrite bind_Ok
      by (rewrite Hc2, (refine_array_1d_unfold _ _ Hk1 HN); reflexivity)];
    [cbn [globals]; rewrite Hg1; exact Hn|].
  cbn [globals] in Hg2. rewrite Hg1 in Hg2.
  erewrite bind_Ok by (apply name_bound; rewrite Hg2; exact Hn).
  erewrite bind_Ok by (apply name_bound; cbn [globals]; rewrite Hg2; exact Hn).
  rewrite E1, E2.
  erewrite bind_Raise; [reflexivity|].
  cbn [mapM].
  erewrite bind_Raise; [reflexivity|].
  erewrite bind_Raise; [reflexivity|].
  erewrite bind_Raise; [reflexivity|].
  apply name_unbound; [cbn [globals]; rewrite Hg2; exact Hphi|].
  unfold builtins. intros Hin. apply list_elem_of_In in Hin.
  cbn in Hin. intuition discriminate.
Qed.

(** The body binds no global; the globals it reads are its free names. *)
Lemma plot_solutions_read_only (Vh uh ue : pyval) (N : Z) :
  read_only_code free_names (plot_solutions array_of apply2 Vh uh ue N).
Proof.
  assert (forall x, x ∈ free_names -> read_only_code free_names (name x)) as Hname
    by (intros x Hx; now apply read_only_name).
  assert (forall x, bool_decide (x ∈ free_names) = true -> x ∈ free_names) as Hin
    by (intros x Hx; now apply bool_decide_eq_true in Hx).
  unfold plot_solutions, call_refine_array_1d.
  repeat first
    [ apply read_only_ret
    | apply read_only_lift
    | apply Hname, Hin; reflexivity
    | apply read_only_mapM; intros ?
    | apply read_only_bind; [|intros ?] ].
Qed.

(** With [phi_exact] bound, the exact panel holds its values on the grid. *)
Lemma exact_row (phi : binding) (e1 : T) (eta2 : list T) (s : state) :
  globals s !! "phi_exact" = Some phi ->
  exists s',
    mapM (fun e2 =>
            phi_exact ← name "phi_exact"; mret (apply2 phi_exact e1 e2)) eta2 s
    = (Ok (apply2 (b_value phi) e1 <$> eta2), s') /\
    globals s' = globals s.
Proof.
  revert s. induction eta2 as [|e2 eta2 IH]; intros s Hphi.
  - exists s. split; reflexivity.
  - cbn [mapM fmap list_fmap].
    erewrite bind_Ok
      by (erewrite bind_Ok by (apply name_bound; exact Hphi); reflexivity).
    edestruct IH as (s' & Hrow & Hg); [|erewrite bind_Ok by exact Hrow].
    + exact Hphi.
    + eexists. split; [reflexivity|exact Hg].
Qed.

Lemma exact_panel (phi : binding) (eta1 eta2 : list T) (s : state) :
  globals s !! "phi_exact" = Some phi ->
  exists s',
    mapM (fun e1 =>
            mapM (fun e2 =>
                    phi_exact ← name "phi_exact";
                    mret (apply2 phi_exact e1 e2)) eta2) eta1 s
    = (Ok ((fun e1 => apply2 (b_value phi) e1 <$> eta2) <$> eta1), s') /\
    globals s' = globals s.
Proof.
  revert s. induction eta1 as [|e1 eta1 IH]; intros s Hphi.
  - exists s. split; reflexivity.
  - cbn [mapM fmap list_fmap].
    destruct (exact_row phi e1 eta2 s Hphi) as (s1 & Hrow & Hg1).
    erewrite bind_Ok by exact Hrow.
    destruct (IH s1) as (s2 & Hrows & Hg2); [now rewrite Hg1|].
    erewrite bind_Ok by exact Hrows.
    eexists. split; [reflexivity|congruence].
Qed.

(** [contourf] accepts arrays with at least two rows and two columns. *)
Lemma contourf_grid (x y : list (list T)) (f : T -> T -> T) (eta1 eta2 : list T) :
  2 <= length eta1 -> 2 <= length eta2 ->
  contourf x y ((fun e1 => f e1 <$> eta2) <$> eta1) = Ok tt.
Proof.
  intros H1 H2. unfold contourf. rewrite length_fmap.
  destruct (Nat.leb_spec 2 (length eta1)) as [_|?]; [|lia]. cbn [andb].
  assert (forallb (fun row : list T => 2 <=? length row)
            ((fun e1 => f e1 <$> eta2) <$> eta1) = true) as ->; [|reflexivity].
  apply forallb_forall. intros row Hrow.
  apply in_map_iff in Hrow as (e1 & <- & _).
  rewrite length_fmap. now apply Nat.leb_le.
Qed.

Lemma contourf_sub (x y a b : list (list T)) :
  contourf x y a = Ok tt -> contourf x y b = Ok tt -> length a = length b ->
  contourf x y (array2_sub a b) = Ok tt.
Proof.
  unfold contourf, array2_sub. intros Ha Hb Hlen.
  destruct (2 <=? length a) eqn:Ea; [|discriminate].
  destruct (2 <=? length b) eqn:Eb; [|discriminate].
  cbn [andb] in *.
  destruct (forallb _ a) eqn:Fa; [|discriminate].
  destruct (forallb _ b) eqn:Fb; [|discriminate].
  rewrite length_zip_with, <- Hlen, Nat.min_id, Ea. cbn [andb].
  assert (forallb (fun row : list T => 2 <=? length row)
            (zip_with (zip_with minus) a b) = true) as ->; [|reflexivity].
  rewrite forallb_forall in Fa, Fb. apply forallb_forall. intros row Hrow.
  apply list_elem_of_In, list_elem_of_lookup in Hrow as [i Hi].
  rewrite lookup_zip_with in Hi.
  destruct (a !! i) as [ra|] eqn:Eai; [|discriminate].
  destruct (b !! i) as [rb|] eqn:Ebi; [|discriminate].
  cbn in Hi. injection Hi as <-.
  assert (In ra a) as Hra by (apply list_elem_of_In, list_elem_of_lookup; eauto).
  assert (In rb b) as Hrb by (apply list_elem_of_In, list_elem_of_lookup; eauto).
  apply Fa in Hra. apply Fb in Hrb.
  apply Nat.leb_le in Hra, Hrb. apply Nat.leb_le.
  rewrite length_zip_with. lia.
Qed.

Lemma contourf_small (x y z : list (list T)) :
  length z < 2 -> contourf x y z = Raise TypeError.
Proof.
  intros Hz. unfold contourf.
  destruct (Nat.leb_spec 2 (length z)) as [?|_]; [lia|reflexivity].
Qed.

Lemma contourf_narrow (x y : list (list T)) (f : T -> T -> T) (eta1 eta2 : list T) :
  eta1 <> [] -> length eta2 < 2 ->
  contourf x y ((fun e1 => f e1 <$> eta2) <$> eta1) = Raise TypeError.
Proof.
  intros Hne H2. unfold contourf.
  destruct eta1 as [|e1 eta1]; [congruence|].
  cbn [fmap list_fmap forallb]. rewrite length_fmap.
  destruct (Nat.leb_spec 2 (length eta2)) as [?|_]; [lia|].
  cbn [andb]. now rewrite andb_false_r.
Qed.

(** What [plot_solutions] does when every free name is bound and both grids
    refine: the numerical panel is [uh] on the refined grid, the exact panel
    is [phi_exact] on it, and the third panel is their difference. *)
Lemma plot_solutions_panels (Vh uh ue : pyval) (N : Z) (s : state)
    (phi : binding) (eta1 eta2 : list T) :
  globals s !! "phi_exact" = Some phi ->
  is_Some (globals s !! "refine_array_1d") ->
  is_Some (globals s !! "np") ->
  is_Some (globals s !! "plt") ->
  is_Some (globals s !! "make_axes_locatable") ->
  refine_array_1d (breaks_of array_of Vh 0) N = Ok eta1 ->
  refine_array_1d (breaks_of array_of Vh 1) N = Ok eta2 ->
  let num := (fun e1 => apply2 uh e1 <$> eta2) <$> eta1 in
  let ex := (fun e1 => apply2 (b_value phi) e1 <$> eta2) <$> eta1 in
  (plot_solutions array_of apply2 Vh uh ue N s).1
  = if (2 <=? length eta1) && (2 <=? length eta2)
    then Ok (Figure (meshgrid_ij eta1 eta2).1 (meshgrid_ij eta1 eta2).2
                    ex num (array2_sub num ex))
    else Raise TypeError.
Proof.
  intros Hphi [br Hr] [bn Hn] [bp Hp] [bm Hm] E1 E2 num ex.
  assert (eta1 <> []) as Hne1.
  { pose proof (refine_array_1d_outcome (breaks_of array_of Vh 0) N) as Hout.
    rewrite E1 in Hout. destruct Hout as (Hk & _ & ->).
    destruct (refined_points_cons (breaks_of array_of Vh 0) N) as (p & r & ->);
      [intros E; rewrite E in Hk; cbn in Hk; lia|discriminate]. }
  unfold plot_solutions.
  erewrite bind_Ok by (apply name_bound; exact Hr).
  edestruct (call_refine_array_1d_bound (breaks_of array_of Vh 0) N bn)
    as (s1 & Hc1 & Hg1);
    [|erewrite bind_Ok by (rewrite Hc1, E1; reflexivity)]; [exact Hn|].
  cbn [globals] in Hg1.
  erewrite bind_Ok by (apply name_bound; rewrite Hg1; exact Hr).
  edestruct (call_refine_array_1d_bound (breaks_of array_of Vh 1) N bn)
    as (s2 & Hc2 & Hg2);
    [|erewrite bind_Ok by (rewrite Hc2, E2; reflexivity)];
    [cbn [globals]; rewrite Hg1; exact Hn|].
  cbn [globals] in Hg2. rewrite Hg1 in Hg2.
  erewrite bind_Ok by (apply name_bound; rewrite Hg2; exact Hn).
  erewrite bind_Ok by (apply name_bound; cbn [globals]; rewrite Hg2; exact Hn).
  edestruct (exact_panel phi eta1 eta2) as (s' & Hpanel & Hg);
    [|erewrite bind_Ok by exact Hpanel]; [cbn [globals]; rewrite Hg2; exact Hphi|].
  cbn [globals] in Hg. rewrite Hg2 in Hg.
  erewrite bind_Ok by (apply name_bound; cbn [globals]; rewrite Hg; exact Hn).
  unfold meshgrid_ij.
  erewrite bind_Ok by (apply name_bound; cbn [globals]; rewrite Hg; exact Hp).
  fold ex. fold num. cbn [fst snd].
  destruct (Nat.leb_spec 2 (length eta1)) as [H1|H1];
    [destruct (Nat.leb_spec 2 (length eta2)) as [H2|H2]|]; cbn [andb].
  - assert (contourf ((fun e1 => (fun _ : T => e1) <$> eta2) <$> eta1)
              ((fun _ : T => eta2) <$> eta1) ex = Ok tt) as Cex
      by (now apply contourf_grid).
    assert (contourf ((fun e1 => (fun _ : T => e1) <$> eta2) <$> eta1)
              ((fun _ : T => eta2) <$> eta1) num = Ok tt) as Cnum
      by (now apply contourf_grid).
    assert (contourf ((fun e1 => (fun _ : T => e1) <$> eta2) <$> eta1)
              ((fun _ : T => eta2) <$> eta1) (array2_sub num ex) = Ok tt) as Cerr.
    { apply contourf_sub; [exact Cnum|exact Cex|].
      unfold num, ex. now rewrite !length_fmap. }
    erewrite bind_Ok by (apply lift_Ok; exact Cex).
    erewrite bind_Ok by (apply name_bound; cbn [globals]; rewrite Hg; exact Hm).
    erewrite bind_Ok by (apply lift_Ok; exact Cnum).
    erewrite bind_Ok by (apply name_bound; cbn [globals]; rewrite Hg; exact Hm).
    erewrite bind_Ok by (apply lift_Ok; exact Cerr).
    erewrite bind_Ok by (apply name_bound; cbn [globals]; rewrite Hg; exact Hm).
    erewrite bind_Ok by (apply name_bound; cbn [globals]; rewrite Hg; exact Hp).
    reflexivity.
  - erewrite bind_Raise; [reflexivity|].
    apply lift_Raise.
    exact (contourf_narrow _ _ (apply2 (b_value phi)) eta1 eta2 Hne1 H2).
  - erewrite bind_Raise; [reflexivity|].
    apply lift_Raise, contourf_small.
    unfold ex. now rewrite length_fmap.
Qed.

End LibrariesFacts.

(** ** The notebook up to the call of line 371 *)

Lemma cells_before_call_run : (block cells_before_call initial).1 = Ok tt.
Proof. vm_compute. reflexivity. Qed.

Lemma before_plot_arguments :
  (before_plot initial).1 = Ok (Vh_value, uh_value, lambdified trial_function).
Proof. vm_compute. reflexivity. Qed.

Lemma before_plot_globals :
  globals (before_plot initial).2 !! "phi_exact" = None /\
  is_Some (globals (before_plot initial).2 !! "refine_array_1d") /\
  is_Some (globals (before_plot initial).2 !! "np").
Proof.
  split; [vm_compute; reflexivity|].
  split; eexists; vm_compute; reflexivity.
Qed.

Section NotebookFacts.

Context {T : Type} `{Number T}.
Variable array_of : pyval -> list T.
Variable apply2 : pyval -> T -> T -> T.

(** The last statement runs [plot_solutions] on what [call_site] read. *)
Lemma notebook_run :
  block (notebook array_of apply2) initial =
  match before_plot initial with
  | (Ok (Vh, uh, ue), s) =>
      match plot_solutions array_of apply2 Vh uh ue 10 s with
      | (Ok _, s') => (Ok tt, s')
      | (Raise e, s') => (Raise e, s')
      end
  | (Raise e, s) => (Raise e, s)
  end.
Proof.
  unfold notebook, before_plot. rewrite block_app.
  unfold mbind at 1, nb_bind at 1.
  destruct (block cells_before_call initial) as [[[]|e] s0]; [|reflexivity].
  unfold cell_visualization_call, block, run_statement, at_line. cbn [fst snd].
  unfold mbind at 1 2, nb_bind at 1 2.
  destruct (call_site _) as [[[[Vh uh] ue]|e] s1]; [|reflexivity].
  unfold mbind at 1, nb_bind at 1.
  destruct (plot_solutions _ _ _ _ _ _ _) as [[fig|e] s2]; reflexivity.
Qed.

(** The whole run adds to [notebook_trace] only what the body of
    [plot_solutions] reads. *)
Lemma notebook_full_trace :
  exists extra,
    trace (block (notebook array_of apply2) initial).2 = notebook_trace ++ extra /\
    reads_only free_names extra.
Proof.
  rewrite notebook_run. unfold notebook_trace.
  pose proof before_plot_arguments as Hargs.
  destruct (before_plot initial) as [r s]. cbn [fst snd] in *. subst r.
  destruct (plot_solutions_read_only array_of apply2 Vh_value uh_value
              (lambdified trial_function) 10 s) as (_ & _ & extra & Ht & He).
  exists extra. split; [|exact He].
  destruct (plot_solutions _ _ _ _ _ _ _) as [[fig|e] s']; exact Ht.
Qed.

End NotebookFacts.

(** ** Stage outputs in the trace *)

Lemma stage_outputs_not_free :
  Forall (fun o => o.1 ∉ free_names) (stage_outputs notebook_trace).
Proof.
  apply (bool_decide_unpack
           (Forall (fun o => o.1 ∉ free_names) (stage_outputs notebook_trace))).
  vm_compute. exact I.
Qed.

Lemma consumers_reads_only (x : string) (d : nat) (tr extra : list event) :
  reads_only free_names extra -> x ∉ free_names ->
  consumers x d (tr ++ extra) = consumers x d tr /\
  consuming_cells x d (tr ++ extra) = consuming_cells x d tr.
Proof.
  intros He Hx. unfold consumers, consuming_cells.
  now rewrite reads_of_app, (reads_of_reads_only _ _ _ _ He Hx), app_nil_r.
Qed.

Lemma reassigned_reads_only (tr extra : list event) :
  reads_only free_names extra -> reassigned (tr ++ extra) = reassigned tr.
Proof.
  intros He. unfold reassigned.
  rewrite (stage_outputs_reads_only _ _ _ He).
  apply list_filter_iff. intros x.
  now rewrite (assigned_at_reads_only _ _ _ _ He).
Qed.

Lemma consumed_at_least_once_reads_only (extra : list event) :
  reads_only free_names extra ->
  consumed_at_least_once (notebook_trace ++ extra).
Proof.
  intros He. unfold consumed_at_least_once.
  rewrite (stage_outputs_reads_only _ _ _ He).
  assert (consumed_at_least_once notebook_trace) as Hclosed.
  { apply (bool_decide_unpack (consumed_at_least_once notebook_trace)).
    vm_compute. exact I. }
  pose proof stage_outputs_not_free as Hfree.
  unfold consumed_at_least_once in Hclosed.
  rewrite Forall_forall in Hclosed, Hfree |- *.
  intros o Ho.
  destruct (consumers_reads_only o.1 o.2 notebook_trace extra He (Hfree o Ho))
    as [-> _].
  exact (Hclosed o Ho).
Qed.

(** ** The claims on the notebook *)

(** C2. [plot_solutions] never reads its parameter [ue]: two calls that differ
    in [ue] only behave alike.  The exact panel is computed from the global
    name [phi_exact], which no cell binds, so the call of line 371 stops with
    [NameError] once both refined grids are built. *)
Theorem plot_solutions_exact_from_phi_exact {T : Type} `{Number T}
    (array_of : pyval -> list T) (apply2 : pyval -> T -> T -> T) :
  2 <= length (breaks_of array_of Vh_value 0) ->
  2 <= length (breaks_of array_of Vh_value 1) ->
  (forall Vh uh ue ue' N s,
      plot_solutions array_of apply2 Vh uh ue N s =
      plot_solutions array_of apply2 Vh uh ue' N s) /\
  (block (notebook array_of apply2) initial).1 = Raise (NameError "phi_exact").
Proof.
  intros Hk0 Hk1. split; [reflexivity|].
  rewrite notebook_run.
  pose proof before_plot_arguments as Hargs.
  destruct before_plot_globals as (Hphi & Hr & Hn).
  destruct (before_plot initial) as [r s]. cbn [fst snd] in *. subst r.
  pose proof (plot_solutions_unbound array_of apply2 Vh_value uh_value
                (lambdified trial_function) 10 s Hphi Hr Hn Hk0 Hk1) as Hraise.
  destruct (plot_solutions _ _ _ _ _ _ _) as [r s']. cbn [fst] in Hraise.
  rewrite Hraise by lia. reflexivity.
Qed.

Lemma plot_solutions_exact_from_phi_exact_witness :
  (forall Vh uh ue ue' N s,
      plot_solutions (fun _ => [0; 1]%Q) (fun _ x y => (x * y)%Q) Vh uh ue N s =
      plot_solutions (fun _ => [0; 1]%Q) (fun _ x y => (x * y)%Q) Vh uh ue' N s) /\
  (block (notebook (fun _ => [0; 1]%Q) (fun _ x y => (x * y)%Q)) initial).1
  = Raise (NameError "phi_exact").
Proof.
  apply (plot_solutions_exact_from_phi_exact
           (fun _ => [0; 1]%Q) (fun _ x y => (x * y)%Q)); cbn; lia.
Defined.

(** C7, as stated: every stage output is consumed by exactly one later
    statement.  The notebook does not do that. *)
Lemma stage_outputs_not_consumed_once : ~ consumed_exactly_once notebook_trace.
Proof.
  intros H.
  apply (bool_decide_pack (consumed_exactly_once notebook_trace)) in H.
  vm_compute in H. exact H.
Qed.

(** C7, amended. Whatever the libraries compute, every stage output is read
    by at least one later statement before its name is assigned again; [Vh],
    [domain_h] and [uh] are read by several statements, in several cells; and
    the names [u], [ue], [h1norm], [h1norm_h] and [h1_error] of the shared
    global namespace are assigned twice. *)
Theorem stage_outputs_consumed {T : Type} `{Number T}
    (array_of : pyval -> list T) (apply2 : pyval -> T -> T -> T) :
  let tr := trace (block (notebook array_of apply2) initial).2 in
  consumed_at_least_once tr /\
  consumers "Vh" 153 tr = [156; 216; 244; 272; 371] /\
  consuming_cells "Vh" 153 tr = [4; 6; 7; 8; 9] /\
  consumers "domain_h" 150 tr = [153; 156; 216; 244; 272] /\
  consumers "uh" 174 tr = [219; 247; 275; 371] /\
  consumers "l2norm_h" 216 tr = [219] /\
  consumers "h1norm_h" 272 tr = [275] /\
  (forall x, x ∈ reassigned tr <->
             x ∈ ["u"; "ue"; "h1norm"; "h1norm_h"; "h1_error"]) /\
  assigned_at "ue" tr = [208; 370] /\
  assigned_at "u" tr = [70; 209] /\
  assigned_at "h1norm_h" tr = [244; 272].
Proof.
  intros tr. subst tr.
  destruct (notebook_full_trace array_of apply2) as (extra & -> & He).
  split; [now apply consumed_at_least_once_reads_only|].
  assert (forall x, bool_decide (x ∉ free_names) = true -> x ∉ free_names) as Hfree
    by (intros x Hx; now apply bool_decide_eq_true in Hx).
  destruct (consumers_reads_only "Vh" 153 notebook_trace extra He) as [-> ->];
    [now apply Hfree|].
  destruct (consumers_reads_only "domain_h" 150 notebook_trace extra He) as [-> _];
    [now apply Hfree|].
  destruct (consumers_reads_only "uh" 174 notebook_trace extra He) as [-> _];
    [now apply Hfree|].
  destruct (consumers_reads_only "l2norm_h" 216 notebook_trace extra He) as [-> _];
    [now apply Hfree|].
  destruct (consumers_reads_only "h1norm_h" 272 notebook_trace extra He) as [-> _];
    [now apply Hfree|].
  rewrite (reassigned_reads_only _ _ He).
  rewrite !(assigned_at_reads_only _ _ _ _ He).
  repeat (split; [vm_compute; reflexivity|]).
  split; [|split; [|split]]; try (vm_compute; reflexivity).
  intros x.
  replace (reassigned notebook_trace)
    with ["u"; "h1norm"; "h1norm_h"; "h1_error"; "ue"]
    by (vm_compute; reflexivity).
  rewrite !elem_of_cons. tauto.
Qed.

(** C10. After line 208 the name [ue] stands for [sin(pi*x)*sin(pi*y)].  Line
    370 assigns it again, to the lambdified [u], and [u] is the trial function
    that line 209 made with [element_of].  That callable is the third argument
    of the call of line 371; it is not the lambdified exact solution.  Called
    at a point it does what the generated code does with the unbound symbol
    [u], the same at every point, while the lambdified exact solution returns
    [sin(pi*a)*sin(pi*b)] at [(a, b)]: wherever that product takes two
    different values, as it does over the reals at [(0, 0)] and [(1/2, 1/2)],
    the callable does not compute it. *)
Theorem exact_argument_is_lambdified_trial_function :
  globals (state_after 208) !! "ue" = Some (Binding 208 Assign exact_solution) /\
  globals (state_after 209) !! "u" = Some (Binding 209 Assign trial_function) /\
  globals (state_after 370) !! "ue"
    = Some (Binding 370 Assign (lambdified trial_function)) /\
  (exists Vh uh, (before_plot initial).1 = Ok (Vh, uh, lambdified trial_function)) /\
  trial_function <> exact_solution /\
  lambdified trial_function <> lambdified exact_solution /\
  (forall (T : Type) (num : Number T) (np_pi : T) (np_sin : T -> T)
          (np_power : T -> T -> T) (free_symbol : string -> result T)
          (unsupported : list (pyval * T) -> pyval -> result T) (a b : T),
      call_lambdified np_pi np_sin np_power free_symbol unsupported
        (lambdified trial_function) a b
      = Some (free_symbol "u") /\
      call_lambdified np_pi np_sin np_power free_symbol unsupported
        (lambdified exact_solution) a b
      = Some (Ok (times (np_sin (times np_pi a)) (np_sin (times np_pi b))))) /\
  (forall (T : Type) (num : Number T) (np_pi : T) (np_sin : T -> T)
          (np_power : T -> T -> T) (free_symbol : string -> result T)
          (unsupported : list (pyval * T) -> pyval -> result T) (a b a' b' : T),
      times (np_sin (times np_pi a)) (np_sin (times np_pi b))
      <> times (np_sin (times np_pi a')) (np_sin (times np_pi b')) ->
      ~ (call_lambdified np_pi np_sin np_power free_symbol unsupported
           (lambdified trial_function) a b
         = Some (Ok (times (np_sin (times np_pi a)) (np_sin (times np_pi b)))) /\
         call_lambdified np_pi np_sin np_power free_symbol unsupported
           (lambdified trial_function) a' b'
         = Some (Ok (times (np_sin (times np_pi a')) (np_sin (times np_pi b')))))) /\
  (forall (np_power : R -> R -> R) (free_symbol : string -> result R)
          (unsupported : list (pyval * R) -> pyval -> result R),
      ~ (call_lambdified PI sin np_power free_symbol unsupported
           (lambdified trial_function) 0%R 0%R
         = Some (Ok (sin (PI * 0) * sin (PI * 0))%R) /\
         call_lambdified PI sin np_power free_symbol unsupported
           (lambdified trial_function) (1 / 2)%R (1 / 2)%R
         = Some (Ok (sin (PI * (1 / 2)) * sin (PI * (1 / 2)))%R))).
Proof.
  split; [vm_compute; reflexivity|].
  split; [vm_compute; reflexivity|].
  split; [vm_compute; reflexivity|].
  split; [exists Vh_value, uh_value; apply before_plot_arguments|].
  split; [discriminate|].
  split; [unfold lambdified; intros [=]|].
  assert (forall (T : Type) (num : Number T) (np_pi : T) (np_sin : T -> T)
            (np_power : T -> T -> T) (free_symbol : string -> result T)
            (unsupported : list (pyval * T) -> pyval -> result T) (a b : T),
             call_lambdified np_pi np_sin np_power free_symbol unsupported
               (lambdified trial_function) a b
             = Some (free_symbol "u")) as Hconst by reflexivity.
  split; [intros; split; reflexivity|].
  split.
  - intros T num np_pi np_sin np_power free_symbol unsupported a b a' b' Hne [E1 E2].
    rewrite Hconst in E1, E2. congruence.
  - intros np_power free_symbol unsupported [E1 E2].
    rewrite Hconst in E1, E2.
    assert ((sin (PI * 0) * sin (PI * 0))%R
            = (sin (PI * (1 / 2)) * sin (PI * (1 / 2)))%R) as E by congruence.
    rewrite Rmult_0_r, sin_0, Rmult_0_l in E.
    replace (PI * (1 / 2))%R with (PI / 2)%R in E by Lra.lra.
    rewrite sin_PI2 in E. Lra.lra.
Qed.

(** * Further properties of refine_array_1d *)

(** X2. With [N = -1], as with [N = 0], every interval contributes nothing:
    given at least two breaks the result is the last break alone. *)
Theorem refine_array_1d_no_subdivision {T : Type} `{Number T}
    (breaks : list T) (N : Z) :
  (2 <= length breaks)%nat -> (-1 <= N <= 0)%Z ->
  exists final, last breaks = Some final /\ refine_array_1d breaks N = Ok [final].
Proof.
  intros Hk HN.
  destruct (last breaks) as [final|] eqn:Hlast.
  - exists final. split; [reflexivity|].
    rewrite refine_array_1d_unfold_ge by (exact Hk || lia).
    f_equal. apply refined_points_no_piece; [lia|exact Hlast].
  - apply last_None in Hlast. subst breaks. cbn in Hk. lia.
Qed.

Lemma refine_array_1d_no_subdivision_witness :
  exists final,
    last [0; 1; 3]%Q = Some final /\ refine_array_1d [0; 1; 3]%Q (-1) = Ok [final].
Proof.
  apply (refine_array_1d_no_subdivision [0; 1; 3]%Q (-1)); [cbn; lia|lia].
Defined.

(** X3. In binary64, for [N >= 1], refining keeps the left end of every
    interval whose step is an ordinary number: if
    [(breaks[i+1] - breaks[i]) / N] is finite and not zero and [breaks[i]] is
    not a NaN, the point at index [i*N] of the result equals [breaks[i]]. *)
Theorem refine_array_1d_keeps_breaks (breaks refined : list spec_float) (N : Z)
    (i : nat) (lo hi : spec_float) :
  refine_array_1d breaks N = Ok refined -> (1 <= N)%Z ->
  breaks !! i = Some lo -> breaks !! S i = Some hi ->
  finite_nonzero (divide (minus hi lo) (of_int N)) = true ->
  is_nan lo = false ->
  exists p, refined !! (i * Z.to_nat N)%nat = Some p /\ SFeqb p lo = true.
Proof.
  intros Hrun HN Hlo Hhi Hstep Hnan.
  pose proof (refine_array_1d_outcome breaks N) as Hout.
  rewrite Hrun in Hout. destruct Hout as (_ & _ & ->).
  exists (sample lo hi N 0). split.
  - rewrite <- (Nat.add_0_r (i * Z.to_nat N)).
    apply refined_points_lookup; [exact Hlo|exact Hhi|lia].
  - now apply binary64_first_sample.
Qed.

Lemma refine_array_1d_keeps_breaks_witness :
  exists refined,
    refine_array_1d [float_one; float_after_one; float_1e308] 2 = Ok refined /\
    exists p,
      refined !! (1 * Z.to_nat 2)%nat = Some p /\ SFeqb p float_after_one = true.
Proof.
  eexists. split; [vm_compute; reflexivity|].
  refine (refine_array_1d_keeps_breaks
            [float_one; float_after_one; float_1e308] _ 2 1
            float_after_one float_1e308 _ _ _ _ _ _);
    try (vm_compute; reflexivity); lia.
Defined.

(** X6. Refining twice and refining once with the product give arrays of the
    same length that end with the same break: whenever
    [refine_array_1d(refine_array_1d(breaks, N), M)] and
    [refine_array_1d(breaks, N*M)] both return, with [N, M >= 1].  In binary64
    the two arrays need not be equal: on [[0.0, 1.0, 3.0]] with [N = 2] and
    [M = 3] they differ. *)
Theorem refine_array_1d_twice :
  (forall (T : Type) (num : Number T) (breaks once twice direct : list T)
          (N M : Z),
      refine_array_1d breaks N = Ok once ->
      refine_array_1d once M = Ok twice ->
      refine_array_1d breaks (N * M) = Ok direct ->
      (1 <= N)%Z -> (1 <= M)%Z ->
      length twice = length direct /\ last twice = last direct) /\
  (exists once twice direct : list spec_float,
      refine_array_1d [of_int 0; of_int 1; of_int 3] 2 = Ok once /\
      refine_array_1d once 3 = Ok twice /\
      refine_array_1d [of_int 0; of_int 1; of_int 3] (2 * 3) = Ok direct /\
      twice <> direct).
Proof.
  split.
  - intros T num breaks once twice direct N M H1 H2 H3 HN HM.
    pose proof (refine_array_1d_outcome breaks N) as O1.
    pose proof (refine_array_1d_outcome once M) as O2.
    pose proof (refine_array_1d_outcome breaks (N * M)) as O3.
    rewrite H1 in O1. rewrite H2 in O2. rewrite H3 in O3.
    destruct O1 as (K1 & _ & E1). destruct O2 as (K2 & _ & E2).
    destruct O3 as (_ & _ & E3).
    assert (breaks <> []) as Hne by (intros ->; cbn in K1; lia).
    assert (once <> []) as Hne1 by (intros ->; cbn in K2; lia).
    split.
    + rewrite E2, E3, !refined_points_length by assumption.
      rewrite E1, refined_points_length by assumption.
      rewrite Nat.add_sub, Z2Nat.inj_mul by lia.
      now rewrite Nat.mul_assoc.
    + rewrite E2, E3, !refined_points_last.
      rewrite E1. apply refined_points_last.
  - eexists. eexists. eexists.
    split; [vm_compute; reflexivity|].
    split; [vm_compute; reflexivity|].
    split; [vm_compute; reflexivity|].
    intros E. apply (f_equal (fun l => l !! 10%nat)) in E.
    vm_compute in E. discriminate.
Qed.

Lemma refine_array_1d_twice_witness :
  exists once twice direct : list Q,
    refine_array_1d [0; 1; 3]%Q 2 = Ok once /\
    refine_array_1d once 3 = Ok twice /\
    refine_array_1d [0; 1; 3]%Q (2 * 3) = Ok direct /\
    length twice = length direct /\ last twice = last direct.
Proof.
  eexists. eexists. eexists.
  split; [vm_compute; reflexivity|].
  split; [vm_compute; reflexivity|].
  split; [vm_compute; reflexivity|].
  refine (proj1 refine_array_1d_twice Q _ [0; 1; 3]%Q _ _ _ 2%Z 3%Z _ _ _ _ _);
    try (vm_compute; reflexivity); lia.
Defined.

(** * Further properties of plot_solutions *)

Lemma bind_inv {A B} (m : nb A) (f : A -> nb B) (s s2 : state) (b : B) :
  (m ≫= f) s = (Ok b, s2) ->
  exists a s1, m s = (Ok a, s1) /\ f a s1 = (Ok b, s2).
Proof.
  unfold mbind, nb_bind. destruct (m s) as [[a|e] s1]; [eauto|discriminate].
Qed.

Lemma lift_inv {A} (r : result A) (s s1 : state) (a : A) :
  lift r s = (Ok a, s1) -> r = Ok a /\ s1 = s.
Proof. unfold lift. now intros [= -> ->]. Qed.

Lemma name_inv (x : string) (s s1 : state) (v : pyval) :
  name x s = (Ok v, s1) -> x ∉ builtins ->
  exists b, globals s !! x = Some b /\ globals s1 = globals s.
Proof.
  unfold name. intros Hname Hx.
  destruct (globals s !! x) as [b|].
  - injection Hname as _ <-. now exists b.
  - rewrite bool_decide_eq_false_2 in Hname by exact Hx. discriminate.
Qed.

Lemma free_names_not_builtin (x : string) : x ∈ free_names -> x ∉ builtins.
Proof.
  intros Hx Hb. apply list_elem_of_In in Hx, Hb. cbn in Hx, Hb.
  intuition (subst; discriminate).
Qed.

Lemma entry_grid {T : Type} (f : T -> T -> T) (eta1 eta2 : list T)
    (i j : nat) (e1 e2 : T) :
  eta1 !! i = Some e1 -> eta2 !! j = Some e2 ->
  entry ((fun x => f x <$> eta2) <$> eta1) i j = Some (f e1 e2).
Proof.
  intros H1 H2. unfold entry.
  rewrite list_lookup_fmap, H1. cbn.
  now rewrite list_lookup_fmap, H2.
Qed.

Lemma has_shape_grid {T : Type} (f : T -> T -> T) (eta1 eta2 : list T) :
  has_shape ((fun x => f x <$> eta2) <$> eta1) (length eta1) (length eta2).
Proof.
  split; [apply length_fmap|].
  apply Forall_fmap, Forall_forall. intros x _. cbn. apply length_fmap.
Qed.

Section PlotSolutions.

Context {T : Type} `{Number T}.
Variable array_of : pyval -> list T.
Variable apply2 : pyval -> T -> T -> T.

Lemma has_shape_sub (a b : list (list T)) (rows cols : nat) :
  has_shape a rows cols -> has_shape b rows cols ->
  has_shape (array2_sub a b) rows cols.
Proof.
  intros [Ha Hra] [Hb Hrb]. unfold array2_sub. split.
  - rewrite length_zip_with. lia.
  - apply Forall_forall. intros row Hrow.
    apply list_elem_of_lookup in Hrow as [i Hi].
    rewrite lookup_zip_with in Hi.
    destruct (a !! i) as [ra|] eqn:Ea; [|discriminate].
    destruct (b !! i) as [rb|] eqn:Eb; [|discriminate].
    cbn in Hi. injection Hi as <-.
    rewrite Forall_forall in Hra, Hrb.
    rewrite length_zip_with.
    rewrite (Hra ra), (Hrb rb); [lia| |];
      apply list_elem_of_lookup; eauto.
Qed.

(** What a call that returns has gone through *)
Lemma plot_solutions_success (Vh uh ue : pyval) (N : Z) (s : state)
    (fig : figure T) :
  (plot_solutions array_of apply2 Vh uh ue N s).1 = Ok fig ->
  exists eta1 eta2 phi,
    refine_array_1d (breaks_of array_of Vh 0) N = Ok eta1 /\
    refine_array_1d (breaks_of array_of Vh 1) N = Ok eta2 /\
    globals s !! "phi_exact" = Some phi /\
    2 <= length eta1 /\ 2 <= length eta2 /\
    fig = Figure (meshgrid_ij eta1 eta2).1 (meshgrid_ij eta1 eta2).2
            ((fun e1 => apply2 (b_value phi) e1 <$> eta2) <$> eta1)
            ((fun e1 => apply2 uh e1 <$> eta2) <$> eta1)
            (array2_sub ((fun e1 => apply2 uh e1 <$> eta2) <$> eta1)
                        ((fun e1 => apply2 (b_value phi) e1 <$> eta2) <$> eta1)).
Proof.
  intros Hok.
  assert (forall x, bool_decide (x ∈ free_names) = true -> x ∉ builtins) as Hnb.
  { intros x Hx. apply free_names_not_builtin. now apply bool_decide_eq_true in Hx. }
  destruct (plot_solutions array_of apply2 Vh uh ue N s) as [r s9] eqn:E.
  cbn [fst] in Hok. subst r. pose proof E as Erun.
  unfold plot_solutions in E.
  apply bind_inv in E as (v1 & s1 & N1 & E).
  apply name_inv in N1 as (br & Hr & G1); [|now apply Hnb].
  apply bind_inv in E as (eta1 & s1' & L1 & E).
  apply call_refine_array_1d_inv in L1 as (E1 & G1' & [bn Hn]).
  apply bind_inv in E as (v2 & s2 & N2 & E).
  apply name_inv in N2 as (? & _ & G2); [|now apply Hnb].
  apply bind_inv in E as (eta2 & s2' & L2 & E).
  apply call_refine_array_1d_inv in L2 as (E2 & G2' & _).
  apply bind_inv in E as (v3 & s3 & N3 & E).
  apply name_inv in N3 as (? & _ & G3); [|now apply Hnb].
  apply bind_inv in E as (v4 & s4 & N4 & E).
  apply name_inv in N4 as (? & _ & G4); [|now apply Hnb].
  apply bind_inv in E as (ex & s5 & Emap & E).
  assert (globals s4 = globals s) as G by congruence.
  assert (exists phi, globals s !! "phi_exact" = Some phi) as [phi Hphi].
  { rewrite <- G.
    pose proof (refine_array_1d_outcome (breaks_of array_of Vh 0) N) as O1.
    pose proof (refine_array_1d_outcome (breaks_of array_of Vh 1) N) as O2.
    rewrite E1 in O1. rewrite E2 in O2.
    destruct O1 as (K1 & _ & R1). destruct O2 as (K2 & _ & R2).
    destruct (refined_points_cons (breaks_of array_of Vh 0) N) as (p1 & r1 & C1);
      [intros C; rewrite C in K1; cbn in K1; lia|].
    destruct (refined_points_cons (breaks_of array_of Vh 1) N) as (p2 & r2 & C2);
      [intros C; rewrite C in K2; cbn in K2; lia|].
    rewrite R1, C1, R2, C2 in Emap. cbn [mapM] in Emap.
    apply bind_inv in Emap as (? & ? & Erow & _).
    apply bind_inv in Erow as (? & ? & Ex & _).
    apply bind_inv in Ex as (? & ? & Nphi & _).
    apply name_inv in Nphi as (phi & Hphi & _); [|now apply Hnb].
    now exists phi. }
  destruct (exact_panel apply2 phi eta1 eta2 s4) as (s5' & Hpanel & G5);
    [now rewrite G|].
  rewrite Hpanel in Emap. injection Emap as <- <-.
  apply bind_inv in E as (v6 & s6 & N6 & E).
  apply name_inv in N6 as (? & _ & G6); [|now apply Hnb].
  destruct (meshgrid_ij eta1 eta2) as [xx yy] eqn:Emesh.
  apply bind_inv in E as (v7 & s7 & N7 & E).
  apply name_inv in N7 as (bp & Hp & G7); [|now apply Hnb].
  apply bind_inv in E as (? & s7' & L7 & E).
  apply lift_inv in L7 as (_ & ->).
  apply bind_inv in E as (v8 & s8 & N8 & E).
  apply name_inv in N8 as (bm & Hm & G8); [|now apply Hnb].
  clear E.
  assert (globals s5' = globals s) as G' by congruence.
  assert (globals s7 = globals s) as G'' by congruence.
  rewrite G6, G' in Hp. rewrite G'' in Hm. rewrite G1 in Hn.
  pose proof (plot_solutions_panels array_of apply2 Vh uh ue N s phi eta1 eta2
                Hphi (mk_is_Some _ _ Hr) (mk_is_Some _ _ Hn)
                (mk_is_Some _ _ Hp) (mk_is_Some _ _ Hm) E1 E2) as Hpanels.
  cbv zeta in Hpanels. rewrite Erun in Hpanels. cbn [fst] in Hpanels.
  exists eta1, eta2, phi.
  destruct (2 <=? length eta1) eqn:Le1; [|discriminate].
  destruct (2 <=? length eta2) eqn:Le2; [|discriminate].
  cbn [andb] in Hpanels. injection Hpanels as ->.
  apply Nat.leb_le in Le1, Le2.
  repeat split; first [assumption|reflexivity].
Qed.

Lemma refined_count_at_least_two (breaks : list T) (N : Z) :
  2 <= length breaks ->
  2 <= length (refined_points breaks N) -> (1 <= N)%Z.
Proof.
  intros Hk Hlen.
  rewrite refined_points_length in Hlen
    by (intros E; rewrite E in Hk; cbn in Hk; lia).
  destruct (Z_lt_le_dec N 1) as [Hlt|Hge]; [|exact Hge].
  replace (Z.to_nat N) with 0 in Hlen by lia.
  rewrite Nat.mul_0_r in Hlen. cbn in Hlen. lia.
Qed.

(** X7. Whenever [plot_solutions] returns its figure, both grids were refined
    with [N >= 1], [phi_exact] was bound, and the entries of the figure at
    [(i, j)] are: the grid point [(eta1[i], eta2[j])], [uh] there, [phi_exact]
    there, and the first minus the second. *)
Theorem plot_solutions_entries (Vh uh ue : pyval) (N : Z) (s : state)
    (fig : figure T) :
  (plot_solutions array_of apply2 Vh uh ue N s).1 = Ok fig ->
  exists eta1 eta2 phi,
    refine_array_1d (breaks_of array_of Vh 0) N = Ok eta1 /\
    refine_array_1d (breaks_of array_of Vh 1) N = Ok eta2 /\
    globals s !! "phi_exact" = Some phi /\
    (1 <= N)%Z /\
    forall i j e1 e2,
      eta1 !! i = Some e1 -> eta2 !! j = Some e2 ->
      entry (fig_xx fig) i j = Some e1 /\
      entry (fig_yy fig) i j = Some e2 /\
      entry (fig_numerical fig) i j = Some (apply2 uh e1 e2) /\
      entry (fig_exact fig) i j = Some (apply2 (b_value phi) e1 e2) /\
      entry (fig_error fig) i j
        = Some (minus (apply2 uh e1 e2) (apply2 (b_value phi) e1 e2)).
Proof.
  intros Hok.
  apply plot_solutions_success in Hok
    as (eta1 & eta2 & phi & E1 & E2 & Hphi & L1 & L2 & ->).
  exists eta1, eta2, phi.
  split; [exact E1|]. split; [exact E2|]. split; [exact Hphi|].
  split.
  { pose proof (refine_array_1d_outcome (breaks_of array_of Vh 0) N) as O1.
    rewrite E1 in O1. destruct O1 as (K1 & _ & ->).
    now apply (refined_count_at_least_two (breaks_of array_of Vh 0)). }
  intros i j e1 e2 H1 H2. cbn [fig_xx fig_yy fig_numerical fig_exact fig_error].
  unfold meshgrid_ij. cbn [fst snd].
  split; [exact (entry_grid (fun x _ => x) eta1 eta2 i j e1 e2 H1 H2)|].
  split.
  { unfold entry. rewrite list_lookup_fmap, H1. exact H2. }
  split; [exact (entry_grid (apply2 uh) eta1 eta2 i j e1 e2 H1 H2)|].
  split; [exact (entry_grid (apply2 (b_value phi)) eta1 eta2 i j e1 e2 H1 H2)|].
  unfold entry, array2_sub.
  rewrite lookup_zip_with, !list_lookup_fmap, H1. cbn.
  rewrite lookup_zip_with, !list_lookup_fmap, H2. reflexivity.
Qed.

(** X8. Whenever [plot_solutions] returns its figure, [N >= 1], both
    directions have at least two breaks, and the five arrays of the figure all
    have [(k1-1)*N + 1] rows and [(k2-1)*N + 1] columns, [k1] and [k2] being
    the numbers of breaks of the two directions. *)
Theorem plot_solutions_shape (Vh uh ue : pyval) (N : Z) (s : state)
    (fig : figure T) :
  (plot_solutions array_of apply2 Vh uh ue N s).1 = Ok fig ->
  (1 <= N)%Z /\
  2 <= length (breaks_of array_of Vh 0) /\
  2 <= length (breaks_of array_of Vh 1) /\
  let rows := (length (breaks_of array_of Vh 0) - 1) * Z.to_nat N + 1 in
  let cols := (length (breaks_of array_of Vh 1) - 1) * Z.to_nat N + 1 in
  has_shape (fig_xx fig) rows cols /\
  has_shape (fig_yy fig) rows cols /\
  has_shape (fig_numerical fig) rows cols /\
  has_shape (fig_exact fig) rows cols /\
  has_shape (fig_error fig) rows cols.
Proof.
  intros Hok.
  apply plot_solutions_success in Hok
    as (eta1 & eta2 & phi & E1 & E2 & Hphi & L1 & L2 & ->).
  pose proof (refine_array_1d_outcome (breaks_of array_of Vh 0) N) as O1.
  pose proof (refine_array_1d_outcome (breaks_of array_of Vh 1) N) as O2.
  rewrite E1 in O1. rewrite E2 in O2.
  destruct O1 as (K1 & _ & ->). destruct O2 as (K2 & _ & ->).
  split; [now apply (refined_count_at_least_two (breaks_of array_of Vh 0))|].
  split; [exact K1|]. split; [exact K2|].
  cbn zeta. cbn [fig_xx fig_yy fig_numerical fig_exact fig_error].
  rewrite <- (refined_points_length _ N)
    by (intros E; rewrite E in K1; cbn in K1; lia).
  rewrite <- (refined_points_length (breaks_of array_of Vh 1) N)
    by (intros E; rewrite E in K2; cbn in K2; lia).
  unfold meshgrid_ij. cbn [fst snd].
  split; [apply (has_shape_grid (fun x _ => x))|].
  split.
  { split; [apply length_fmap|].
    apply Forall_fmap, Forall_forall. intros x _. reflexivity. }
  split; [apply has_shape_grid|].
  split; [apply has_shape_grid|].
  apply has_shape_sub; apply has_shape_grid.
Qed.


(** ** Failures of refine_array_1d inside plot_solutions *)

Lemma plot_solutions_grids_raise (Vh uh ue : pyval) (N : Z) (s s' : state)
    (e : exn) :
  refined_grids array_of Vh N s = (Raise e, s') ->
  plot_solutions array_of apply2 Vh uh ue N s = (Raise e, s').
Proof.
  unfold refined_grids, plot_solutions, mbind, nb_bind.
  destruct (name "refine_array_1d" s) as [[v1|e1] s1]; [|now intros [= -> ->]].
  destruct (call_refine_array_1d _ N s1) as [[eta1|e1] s2]; [|now intros [= -> ->]].
  destruct (name "refine_array_1d" s2) as [[v2|e2] s3]; [|now intros [= -> ->]].
  destruct (call_refine_array_1d _ N s3) as [[eta2|e2] s4]; [|now intros [= -> ->]].
  discriminate.
Qed.


Lemma refined_grids_bad (Vh : pyval) (N : Z) (s : state) :
  is_Some (globals s !! "refine_array_1d") ->
  is_Some (globals s !! "np") ->
  length (breaks_of array_of Vh 0) < 2 \/
  length (breaks_of array_of Vh 1) < 2 \/ (N < -1)%Z ->
  (refined_grids array_of Vh N s).1 = Raise ValueError.
Proof.
  intros [br Hr] [bn Hn] Hbad. unfold refined_grids.
  erewrite bind_Ok by (apply name_bound; exact Hr).
  match goal with
  | |- context [(call_refine_array_1d ?b N ≫= _) ?s0] =>
      destruct (call_refine_array_1d_bound b N bn s0) as (s1 & Hc1 & Hg1);
        [exact Hn|]
  end.
  cbn [globals] in Hg1.
  pose proof (refine_array_1d_outcome (breaks_of array_of Vh 0) N) as H0.
  destruct (refine_array_1d (breaks_of array_of Vh 0) N) as [eta1|e].
  - destruct H0 as (Hk0 & HN & _).
    erewrite bind_Ok by exact Hc1.
    erewrite bind_Ok by (apply name_bound; rewrite Hg1; exact Hr).
    match goal with
    | |- context [(call_refine_array_1d ?b N ≫= _) ?s0] =>
        destruct (call_refine_array_1d_bound b N bn s0) as (s2 & Hc2 & Hg2);
          [cbn [globals]; rewrite Hg1; exact Hn|]
    end.
    pose proof (refine_array_1d_outcome (breaks_of array_of Vh 1) N) as H1.
    destruct (refine_array_1d (breaks_of array_of Vh 1) N) as [eta2|e].
    + destruct H1 as (Hk1 & _ & _). lia.
    + destruct H1 as (-> & _). erewrite bind_Raise by exact Hc2. reflexivity.
  - destruct H0 as (-> & _). erewrite bind_Raise by exact Hc1. reflexivity.
Qed.


(** A failure of [refine_array_1d] ends the call. *)
Lemma plot_solutions_refine_error (Vh uh ue : pyval) (N : Z) (s : state) :
  is_Some (globals s !! "refine_array_1d") ->
  is_Some (globals s !! "np") ->
  length (breaks_of array_of Vh 0) < 2 \/
  length (breaks_of array_of Vh 1) < 2 \/ (N < -1)%Z ->
  (plot_solutions array_of apply2 Vh uh ue N s).1 = Raise ValueError.
Proof.
  intros Hr Hn Hbad.
  pose proof (refined_grids_bad Vh N s Hr Hn Hbad) as Hgrids.
  destruct (refined_grids array_of Vh N s) as [r s'] eqn:E. cbn [fst] in Hgrids. subst r.
  now rewrite (plot_solutions_grids_raise Vh uh ue N s s' ValueError E).
Qed.



End PlotSolutions.

(** ** The last cell, whatever the libraries return *)

(** X11. The notebook never gets to show its figure: for every content of the
    break arrays and every behaviour of the callables, running it from top to
    bottom ends with an exception at line 371, [ValueError] when a break array
    of [Vh] has fewer than two entries and [NameError] for [phi_exact]
    otherwise. *)
Theorem notebook_always_raises
    {T : Type} `{Number T}
    (array_of : pyval -> list T) (apply2 : pyval -> T -> T -> T) :
  exists e,
    (block (notebook array_of apply2) initial).1 = Raise e /\
    line (block (notebook array_of apply2) initial).2 = 371 /\
    (e = ValueError <->
     length (breaks_of array_of Vh_value 0) < 2 \/
     length (breaks_of array_of Vh_value 1) < 2) /\
    (e = NameError "phi_exact" <->
     2 <= length (breaks_of array_of Vh_value 0) /\
     2 <= length (breaks_of array_of Vh_value 1)).
Proof.
  rewrite notebook_run.
  pose proof before_plot_arguments as Hargs.
  destruct before_plot_globals as (Hphi & Hr & Hn).
  assert (line (before_plot initial).2 = 371) as Hline by (vm_compute; reflexivity).
  destruct (before_plot initial) as [r s]. cbn [fst snd] in *. subst r.
  destruct (plot_solutions_read_only array_of apply2 Vh_value uh_value
              (lambdified trial_function) 10 s) as (_ & Hl & _).
  destruct (le_lt_dec 2 (length (breaks_of array_of Vh_value 0))) as [Hk0|Hk0];
    [destruct (le_lt_dec 2 (length (breaks_of array_of Vh_value 1))) as [Hk1|Hk1]|].
  - pose proof (plot_solutions_unbound array_of apply2 Vh_value uh_value
                  (lambdified trial_function) 10 s Hphi Hr Hn Hk0 Hk1) as Hraise.
    destruct (plot_solutions _ _ _ _ _ _ _) as [r s']. cbn [fst snd] in *.
    rewrite Hraise by lia. eexists. split; [reflexivity|].
    split; [cbn [snd]; congruence|].
    split; split; try discriminate; try lia; auto.
  - pose proof (plot_solutions_refine_error array_of apply2 Vh_value uh_value
                  (lambdified trial_function) 10 s Hr Hn) as Hraise.
    destruct (plot_solutions _ _ _ _ _ _ _) as [r s']. cbn [fst snd] in *.
    rewrite Hraise by auto. eexists. split; [reflexivity|].
    split; [cbn [snd]; congruence|].
    split; split; try discriminate; try lia; auto.
  - pose proof (plot_solutions_refine_error array_of apply2 Vh_value uh_value
                  (lambdified trial_function) 10 s Hr Hn) as Hraise.
    destruct (plot_solutions _ _ _ _ _ _ _) as [r s']. cbn [fst snd] in *.
    rewrite Hraise by auto. eexists. split; [reflexivity|].
    split; [cbn [snd]; congruence|].
    split; split; try discriminate; try lia; auto.
Qed.

(** ** The statements above on a small grid *)

Lemma plot_solutions_entries_witness :
  exists fig,
    (plot_solutions (fun _ => [0; 1]%Q) (fun _ x y => (x * y)%Q)
       VNone VNone VNone 1 complete_namespace).1 = Ok fig /\
    exists eta1 eta2 phi,
      refine_array_1d [0; 1]%Q 1 = Ok eta1 /\
      refine_array_1d [0; 1]%Q 1 = Ok eta2 /\
      globals complete_namespace !! "phi_exact" = Some phi /\
      (1 <= 1)%Z /\
      forall i j e1 e2,
        eta1 !! i = Some e1 -> eta2 !! j = Some e2 ->
        entry (fig_xx fig) i j = Some e1 /\
        entry (fig_yy fig) i j = Some e2 /\
        entry (fig_numerical fig) i j = Some (e1 * e2)%Q /\
        entry (fig_exact fig) i j = Some (e1 * e2)%Q /\
        entry (fig_error fig) i j = Some (e1 * e2 - e1 * e2)%Q.
Proof.
  eexists. split; [vm_compute; reflexivity|].
  refine (plot_solutions_entries (fun _ => [0; 1]%Q) (fun _ x y => (x * y)%Q)
            VNone VNone VNone 1 complete_namespace _ _).
  vm_compute. reflexivity.
Defined.

Lemma plot_solutions_shape_witness :
  exists fig,
    (plot_solutions (fun _ => [0; 1; 3]%Q) (fun _ x y => (x * y)%Q)
       VNone VNone VNone 2 complete_namespace).1 = Ok fig /\
    (1 <= 2)%Z /\
    2 <= length [0; 1; 3]%Q /\
    2 <= length [0; 1; 3]%Q /\
    let rows := (length [0; 1; 3]%Q - 1) * Z.to_nat 2 + 1 in
    let cols := (length [0; 1; 3]%Q - 1) * Z.to_nat 2 + 1 in
    has_shape (fig_xx fig) rows cols /\
    has_shape (fig_yy fig) rows cols /\
    has_shape (fig_numerical fig) rows cols /\
    has_shape (fig_exact fig) rows cols /\
    has_shape (fig_error fig) rows cols.
Proof.
  eexists. split; [vm_compute; reflexivity|].
  refine (plot_solutions_shape (fun _ => [0; 1; 3]%Q) (fun _ x y => (x * y)%Q)
            VNone VNone VNone 2 complete_namespace _ _).
  vm_compute. reflexivity.
Defined.


